(** * datepp: Unix timestamps to calendar dates, and their rendering

    A shallow embedding of [datepp.hpp] (namespace [beliumgl]) and the
    properties of its calendar arithmetic, epoch conversion, format parser
    and renderer.

    Conventions of the embedding:
    - C++ integers are [Z]; every narrowing conversion of the source is
      written out ([to_short], [to_uchar], [to_int], [to_ll]); [/] and [%]
      are the truncating [Z.quot] and [Z.rem].
    - signed overflow wraps around (two's complement).
    - [double] is Rocq's binary64 [float].
    - [std::string] is the list of its characters; [std::unordered_map] is
      [gmap]; [std::unordered_set] is [gset].
    - a call either returns, throws a C++ exception, or has no defined
      behaviour (integer division by zero, a write before the start of a
      string); loops carry fuel and report [Timeout] when it runs out. *)

From stdpp Require Import base gmap strings list sorting.
From Stdlib Require Import ZArith Floats Uint63 Lia Ascii.
From Stdlib Require String.

#[local] Open Scope Z_scope.

(** ** Machine integers *)

Definition wrap_signed (bits : Z) (z : Z) : Z :=
  (z + 2 ^ (bits - 1)) mod 2 ^ bits - 2 ^ (bits - 1).

Definition to_short (z : Z) : Z := wrap_signed 16 z.
Definition to_int (z : Z) : Z := wrap_signed 32 z.
Definition to_ll (z : Z) : Z := wrap_signed 64 z.
Definition to_uchar (z : Z) : Z := z mod 256.

Definition LLONG_MIN : Z := - 2 ^ 63.
Definition LLONG_MAX : Z := 2 ^ 63 - 1.
Definition is_ll (z : Z) : Prop := LLONG_MIN <= z <= LLONG_MAX.

(** ** Outcomes of a call *)

Inductive exception : Type :=
  | invalid_argument (what : string)
  | runtime_error (what : string)
  | out_of_range (what : string)
  | domain_error (what : string).

Inductive outcome (A : Type) : Type :=
  | Ok (a : A)
  | Throw (e : exception)
  | Undefined
  | Timeout.
Arguments Ok {A} a.
Arguments Throw {A} e.
Arguments Undefined {A}.
Arguments Timeout {A}.

#[global] Instance outcome_bind : MBind outcome := fun A B k x =>
  match x with
  | Ok a => k a
  | Throw e => Throw e
  | Undefined => Undefined
  | Timeout => Timeout
  end.

#[global] Instance outcome_fmap : FMap outcome := fun A B g x =>
  match x with
  | Ok a => Ok (g a)
  | Throw e => Throw e
  | Undefined => Undefined
  | Timeout => Timeout
  end.

(** [try { body } catch (...) { throw e; }] *)
Definition catch_all {A : Type} (body : outcome A) (e : exception) : outcome A :=
  match body with
  | Throw _ => Throw e
  | r => r
  end.

(** ** Calendar arithmetic (private helpers of [DateTime]) *)

(** [enum class DOTW], by its underlying values. *)
Definition DOTW : Type := Z.
Definition Sunday : DOTW := 0.
Definition Monday : DOTW := 1.
Definition Tuesday : DOTW := 2.
Definition Wednesday : DOTW := 3.
Definition Thursday : DOTW := 4.
Definition Friday : DOTW := 5.
Definition Saturday : DOTW := 6.

Definition defYears : Z := 1970.
Definition defMonth : Z := 0.

Definition isLeapYear (year : Z) : bool :=
  (Z.rem year 4 =? 0) && (negb (Z.rem year 100 =? 0) || (Z.rem year 400 =? 0)).

Definition days_table : list Z := [31; 28; 31; 30; 31; 30; 31; 31; 30; 31; 30; 31].

Definition daysInMonth (year month : Z) : outcome Z :=
  if (month <? 0) || (month >? 11)
  then Throw (invalid_argument "Invalid month (must be 0-11)")
  else Ok (if (month =? 1) && isLeapYear year then 29
           else nth (Z.to_nat month) days_table 0).

Definition dotwByDate (year month day : Z) : outcome DOTW :=
  if (month <? 1) || (month >? 12)
  then Throw (invalid_argument "Month must be 1-12")
  else
    max_day ← daysInMonth year (to_uchar (month - 1));
    if (day <? 1) || (day >? max_day)
    then Throw (invalid_argument "Invalid day for month")
    else
      let m := month in
      let y := year in
      let '(m, y) := if m <? 3 then (m + 12, y - 1) else (m, y) in
      let q := day in
      let K := Z.rem y 100 in
      let J := Z.quot y 100 in
      let h := Z.rem (q + Z.quot (13 * (m + 1)) 5 + K + Z.quot K 4 + Z.quot J 4 + 5 * J) 7 in
      Ok (Z.rem (h - 1 + 7) 7).

(** ** Epoch conversion *)

Definition secondsInDay : Z := 86400.
Definition secondsInHour : Z := 3600.
Definition secondsInMinute : Z := 60.

(** [static_cast<long long>(double)]: truncation toward zero.  Outside the
    range of [long long] (and for NaN and the infinities) C++ leaves the
    result open; the value taken here is the one [cvttsd2si] gives. *)
Definition double_to_ll (x : float) : Z :=
  match Prim2SF x with
  | S754_zero _ => 0
  | S754_finite s m e =>
      let mag := if 0 <=? e then Z.pos m * 2 ^ e else Z.pos m / 2 ^ (- e) in
      let z := if s then - mag else mag in
      if (LLONG_MIN <=? z) && (z <=? LLONG_MAX) then z else LLONG_MIN
  | _ => LLONG_MIN
  end.

(** The day count and the second of the day (lines 253-261). *)
Definition splitDays (adjustedUnix : Z) : Z * Z :=
  let days := Z.quot adjustedUnix secondsInDay in
  let remainderSeconds := to_int (Z.rem adjustedUnix secondsInDay) in
  if remainderSeconds <? 0
  then (days - 1, remainderSeconds + secondsInDay)
  else (days, remainderSeconds).

Definition daysInYear (year : Z) : Z := if isLeapYear year then 366 else 365.

(** [while (true) { ... if (days >= daysInYear) { days -= daysInYear; ++year; } else break; }] *)
Fixpoint walkYearsForward (fuel : nat) (days year : Z) : outcome (Z * Z) :=
  match fuel with
  | O => Timeout
  | S fuel =>
      if days >=? daysInYear year
      then walkYearsForward fuel (days - daysInYear year) (to_short (year + 1))
      else Ok (days, year)
  end.

(** [while (days < 0) { prevYear = year - 1; ...; days += daysInYear; --year; }] *)
Fixpoint walkYearsBackward (fuel : nat) (days year : Z) : outcome (Z * Z) :=
  match fuel with
  | O => Timeout
  | S fuel =>
      if days <? 0
      then
        let prevYear := to_short (year - 1) in
        walkYearsBackward fuel (days + daysInYear prevYear) (to_short (year - 1))
      else Ok (days, year)
  end.

(** [while (true) { monthDays = daysInMonth(year, month); if (days >= monthDays) { days -= monthDays; ++month; } else break; }] *)
Fixpoint walkMonths (fuel : nat) (days year month : Z) : outcome (Z * Z) :=
  match fuel with
  | O => Timeout
  | S fuel =>
      monthDays ← daysInMonth year month;
      if days >=? monthDays
      then walkMonths fuel (days - monthDays) year (to_uchar (month + 1))
      else Ok (days, month)
  end.

Record CalendarFields : Type := mkFields {
  years : Z;
  months : Z;
  dotw : DOTW;
  days : Z;
  hours : Z;
  minutes : Z;
  seconds : Z
}.

(** Fuel for the year walks: each turn moves the day count by at least 365. *)
Definition yearFuel (days : Z) : nat := Z.to_nat (Z.abs days / 365) + 2.

(** Fuel for the month walk: [daysInMonth] throws at the thirteenth turn. *)
Definition monthFuel : nat := 13.

Definition parseUnix (_unix : Z) (timezoneOffset : float) : outcome CalendarFields :=
  let timezoneSeconds := double_to_ll (PrimFloat.mul timezoneOffset 3600%float) in
  let adjustedUnix := to_ll (_unix + timezoneSeconds) in
  let '(days, remainderSeconds) := splitDays adjustedUnix in
  let year := defYears in
  '(days, year) ← (if days >=? 0
                    then walkYearsForward (yearFuel days) days year
                    else walkYearsBackward (yearFuel days) days year);
  let month := defMonth in
  '(days, month) ← walkMonths monthFuel days year month;
  let hours := Z.quot remainderSeconds secondsInHour in
  let remainderSeconds := Z.rem remainderSeconds secondsInHour in
  let minutes := Z.quot remainderSeconds secondsInMinute in
  let seconds := Z.rem remainderSeconds secondsInMinute in
  dotw ← dotwByDate year (to_uchar (month + 1)) (to_uchar (days + 1));
  Ok {| years := year; months := month; dotw := dotw; days := to_uchar days;
        hours := to_uchar hours; minutes := to_uchar minutes; seconds := to_uchar seconds |}.

(** ** Strings *)

(** The characters of a [std::string]. *)
Definition text (s : string) : list ascii := String.list_ascii_of_string s.

(** [std::tolower] in the "C" locale. *)
Definition tolower (c : ascii) : ascii :=
  let n := nat_of_ascii c in
  if (65 <=? n)%nat && (n <=? 90)%nat then ascii_of_nat (n + 32) else c.

Definition toLowercase (str : list ascii) : list ascii := map tolower str.

(** [str.erase(std::remove(str.begin(), str.end(), token), str.end())] *)
Definition removeAll (str : list ascii) (token : ascii) : list ascii :=
  filter (fun c => c <> token) str.

(** The loop of [removeDuplicates]: [seen.insert(c).second] holds when [c]
    was not in [seen] yet. *)
Fixpoint removeDuplicates_loop (str : list ascii) (seen : gset ascii) (output : list ascii)
  : list ascii :=
  match str with
  | [] => output
  | c :: str =>
      if decide (c ∈ seen)
      then removeDuplicates_loop str seen output
      else removeDuplicates_loop str ({[c]} ∪ seen) (output ++ [c])
  end.

Definition removeDuplicates (str : list ascii) : list ascii :=
  removeDuplicates_loop str ∅ [].

(** [std::to_string] of an integer. *)
Definition digit_char (d : Z) : ascii := ascii_of_nat (48 + Z.to_nat d).

Fixpoint to_digits (fuel : nat) (n : Z) (acc : list ascii) : list ascii :=
  match fuel with
  | O => acc
  | S fuel =>
      let acc := digit_char (n mod 10) :: acc in
      if n <? 10 then acc else to_digits fuel (n / 10) acc
  end.

Definition digitsFuel (n : Z) : nat := S (Z.to_nat (Z.log2 n)).

Definition to_string (z : Z) : list ascii :=
  if z <? 0
  then "-"%char :: to_digits (digitsFuel (- z)) (- z) []
  else to_digits (digitsFuel z) z [].

(** [std::to_string] of a [double]: the format [%f], six digits after the
    point, the exact binary value rounded half to even.  A NaN prints
    without its sign. *)
Definition round_half_even (n d : Z) : Z :=
  let q := n / d in
  let r := n mod d in
  if (d <? 2 * r) || ((d =? 2 * r) && Z.odd q) then q + 1 else q.

Definition pad_left (width : nat) (c : ascii) (s : list ascii) : list ascii :=
  replicate (width - length s) c ++ s.

Definition to_string_double (x : float) : list ascii :=
  match Prim2SF x with
  | S754_zero s => (if s then text "-" else []) ++ text "0.000000"
  | S754_infinity s => (if s then text "-" else []) ++ text "inf"
  | S754_nan => text "nan"
  | S754_finite s m e =>
      let scaled :=
        if 0 <=? e then Z.pos m * 2 ^ e * 1000000
        else round_half_even (Z.pos m * 1000000) (2 ^ (- e)) in
      (if s then text "-" else [])
      ++ to_string (scaled / 1000000) ++ text "."
      ++ pad_left 6 "0"%char (to_string (scaled mod 1000000))
  end.

(** [std::stoll(str)], base 10: leading white space, an optional sign, then
    the longest run of digits; what follows is ignored. *)
Definition isspace (c : ascii) : bool :=
  let n := nat_of_ascii c in (n =? 32)%nat || ((9 <=? n)%nat && (n <=? 13)%nat).

Definition isdigit (c : ascii) : bool :=
  let n := nat_of_ascii c in (48 <=? n)%nat && (n <=? 57)%nat.

Definition digit_value (c : ascii) : Z := Z.of_nat (nat_of_ascii c) - 48.

Fixpoint skip_spaces (str : list ascii) : list ascii :=
  match str with
  | c :: rest => if isspace c then skip_spaces rest else str
  | [] => []
  end.

Fixpoint parse_digits (acc : Z) (str : list ascii) : Z :=
  match str with
  | c :: rest => if isdigit c then parse_digits (acc * 10 + digit_value c) rest else acc
  | [] => acc
  end.

Definition starts_with_digit (str : list ascii) : bool :=
  match str with
  | c :: _ => isdigit c
  | [] => false
  end.

Definition stoll (str : list ascii) : outcome Z :=
  let str := skip_spaces str in
  let '(negative, str) :=
    match str with
    | c :: rest =>
        if Ascii.eqb c "-" then (true, rest)
        else if Ascii.eqb c "+" then (false, rest)
        else (false, str)
    | [] => (false, str)
    end in
  if negb (starts_with_digit str) then Throw (invalid_argument "stoll")
  else
    let magnitude := parse_digits 0 str in
    let value := if negative then - magnitude else magnitude in
    if (LLONG_MIN <=? value) && (value <=? LLONG_MAX) then Ok value
    else Throw (out_of_range "stoll").

(** [std::unordered_map::at] *)
Definition map_at {V : Type} (m : gmap Z V) (key : Z) : outcome V :=
  match m !! key with
  | Some v => Ok v
  | None => Throw (out_of_range "unordered_map::at")
  end.

(** ** [class DateTimeFormat] *)

Record DateTimeFormat : Type := mkFormat {
  delimiter : ascii;
  showDotw : bool;
  showTime : bool;
  showUTCoffset : bool;
  fillZeros : bool;
  alphabeticalMonth : bool;
  _12Hours : bool;
  fullNames : bool;
  order : list ascii
}.

(** The default member initialisers. *)
Definition defaultMembers : DateTimeFormat :=
  mkFormat "/" false false false false false false false (text "mdy").

Definition set_delimiter (c : ascii) (f : DateTimeFormat) : DateTimeFormat :=
  mkFormat c (showDotw f) (showTime f) (showUTCoffset f) (fillZeros f)
    (alphabeticalMonth f) (_12Hours f) (fullNames f) (order f).
Definition set_showDotw (f : DateTimeFormat) : DateTimeFormat :=
  mkFormat (delimiter f) true (showTime f) (showUTCoffset f) (fillZeros f)
    (alphabeticalMonth f) (_12Hours f) (fullNames f) (order f).
Definition set_showTime (f : DateTimeFormat) : DateTimeFormat :=
  mkFormat (delimiter f) (showDotw f) true (showUTCoffset f) (fillZeros f)
    (alphabeticalMonth f) (_12Hours f) (fullNames f) (order f).
Definition set_showUTCoffset (f : DateTimeFormat) : DateTimeFormat :=
  mkFormat (delimiter f) (showDotw f) (showTime f) true (fillZeros f)
    (alphabeticalMonth f) (_12Hours f) (fullNames f) (order f).
Definition set_fillZeros (f : DateTimeFormat) : DateTimeFormat :=
  mkFormat (delimiter f) (showDotw f) (showTime f) (showUTCoffset f) true
    (alphabeticalMonth f) (_12Hours f) (fullNames f) (order f).
Definition set_alphabeticalMonth (f : DateTimeFormat) : DateTimeFormat :=
  mkFormat (delimiter f) (showDotw f) (showTime f) (showUTCoffset f) (fillZeros f)
    true (_12Hours f) (fullNames f) (order f).
Definition set_12Hours (f : DateTimeFormat) : DateTimeFormat :=
  mkFormat (delimiter f) (showDotw f) (showTime f) (showUTCoffset f) (fillZeros f)
    (alphabeticalMonth f) true (fullNames f) (order f).
Definition set_fullNames (f : DateTimeFormat) : DateTimeFormat :=
  mkFormat (delimiter f) (showDotw f) (showTime f) (showUTCoffset f) (fillZeros f)
    (alphabeticalMonth f) (_12Hours f) true (order f).
Definition set_order (o : list ascii) (f : DateTimeFormat) : DateTimeFormat :=
  mkFormat (delimiter f) (showDotw f) (showTime f) (showUTCoffset f) (fillZeros f)
    (alphabeticalMonth f) (_12Hours f) (fullNames f) o.

Definition dotwToken : ascii := "w".
Definition dayToken : ascii := "d".
Definition monthToken : ascii := "m".
Definition yearToken : ascii := "y".
Definition hourToken : ascii := "h".
Definition minuteToken : ascii := "i".
Definition secondToken : ascii := "s".
Definition timezoneOffsetToken : ascii := "o".
Definition _12HoursToken : ascii := "_".
Definition alphabeticalMonthToken : ascii := "a".

Definition isOrderToken (c : ascii) : bool :=
  Ascii.eqb c dayToken || Ascii.eqb c monthToken || Ascii.eqb c yearToken
  || Ascii.eqb c alphabeticalMonthToken.

(** [i + 1 < newFormat.length() && newFormat[i + 1] == token], with [next]
    the character at [i + 1] when there is one. *)
Definition next_is (next : option ascii) (token : ascii) : bool :=
  match next with
  | Some c => Ascii.eqb c token
  | None => false
  end.

(** The scanning loop of the string constructor, at index [i] with
    [newFormat] the characters from [i] on; [this] holds the members set so
    far and [order] the local order string. *)
Fixpoint scanFormat (newFormat : list ascii) (this : DateTimeFormat) (order : list ascii)
  : DateTimeFormat * list ascii :=
  match newFormat with
  | [] => (this, order)
  | token :: rest =>
      let next := head rest in
      if Ascii.eqb token dotwToken then
        let this := set_showDotw this in
        let this := if next_is next dotwToken then set_fullNames this else this in
        scanFormat rest this order
      else if isOrderToken token then
        let order := order ++ [token] in
        let this :=
          if next_is next token && negb (fillZeros this) then set_fillZeros this else this in
        let this :=
          match next with
          | Some c => if (length order <? 3)%nat then set_delimiter c this else this
          | None => this
          end in
        let this :=
          if Ascii.eqb token alphabeticalMonthToken then set_alphabeticalMonth this else this in
        scanFormat rest this order
      else if Ascii.eqb token hourToken || Ascii.eqb token minuteToken
              || Ascii.eqb token secondToken then
        let this := set_showTime this in
        let this :=
          if next_is next token && negb (fillZeros this) then set_fillZeros this else this in
        scanFormat rest this order
      else if Ascii.eqb token _12HoursToken then
        scanFormat rest (set_12Hours this) order
      else if Ascii.eqb token timezoneOffsetToken then
        scanFormat rest (set_showUTCoffset this) order
      else scanFormat rest this order
  end.

(** What the scan works on: the format in lower case, spaces removed. *)
Definition normalizeFormat (format : list ascii) : list ascii :=
  removeAll (toLowercase format) " "%char.

(** [DateTimeFormat::DateTimeFormat(const std::string& format)] *)
Definition DateTimeFormat_from_string (format : list ascii) : outcome DateTimeFormat :=
  let newFormat := normalizeFormat format in
  let '(this, order) := scanFormat newFormat defaultMembers [] in
  let order := removeDuplicates order in
  if negb (length order =? 3)%nat
  then Throw (runtime_error "Failed to generate order from string.")
  else Ok (set_order order this).

(** The constructor from the members, with its defaults applied by the caller. *)
Definition DateTimeFormat_from_members (delimiter : ascii)
    (showDotw showTime showUTCoffset fillZeros alphabeticalMonth _12Hours fullNames : bool)
    (order : list ascii) : DateTimeFormat :=
  mkFormat delimiter showDotw showTime showUTCoffset fillZeros alphabeticalMonth
    _12Hours fullNames (toLowercase order).

Definition defaultFormat : list ascii := text "W, DD/MM/YY, HH:II:SS O UTC".

(** ** [class DateTime] *)

Record DateTime : Type := mkDateTime {
  unix_str : list ascii;
  fields : CalendarFields;
  timezoneOffset : float
}.

Definition dotwStrMap : gmap Z (list ascii) :=
  list_to_map [
    (Sunday, text "Sunday"); (Monday, text "Monday"); (Tuesday, text "Tuesday");
    (Wednesday, text "Wednesday"); (Thursday, text "Thursday"); (Friday, text "Friday");
    (Saturday, text "Saturday")
  ].

Definition monthsStrMap : gmap Z (list ascii) :=
  list_to_map [
    (0, text "January"); (1, text "February"); (2, text "March"); (3, text "April");
    (4, text "May"); (5, text "June"); (6, text "July"); (7, text "August");
    (8, text "September"); (9, text "October"); (10, text "November");
    (11, text "December")
  ].

Definition shortStrLength : nat := 3.

(** [DateTime::DateTime(const std::string& _unix, timezone_offset_t timezoneOffset)] *)
Definition DateTime_from_string (_unix : list ascii) (offset : float) : outcome DateTime :=
  catch_all
    (n ← stoll _unix;
     f ← parseUnix n offset;
     Ok (mkDateTime _unix f offset))
    (invalid_argument "Your unix timestamp is invalid.").

(** [padZeros<T>] for the integer types and for [double]. *)
Definition padZeros (num : Z) : list ascii :=
  (if (num <? 10) && (num >=? 0) then text "0" else []) ++ to_string num.

Definition padZeros_double (num : float) : list ascii :=
  (if PrimFloat.ltb num 10%float && PrimFloat.leb 0%float num then text "0" else [])
  ++ to_string_double num.

(** One turn of the loop over [order]: the [switch], then the delimiter. *)
Definition renderOrderField (this : DateTime) (format : DateTimeFormat) (c : ascii)
  : outcome (list ascii) :=
  if Ascii.eqb c dayToken then
    Ok (if fillZeros format then padZeros (days (fields this) + 1)
        else to_string (days (fields this) + 1))
  else if Ascii.eqb c monthToken then
    Ok (if fillZeros format then padZeros (months (fields this) + 1)
        else to_string (months (fields this) + 1))
  else if Ascii.eqb c alphabeticalMonthToken then
    name ← map_at monthsStrMap (months (fields this));
    Ok (if fullNames format then name else take shortStrLength name)
  else if Ascii.eqb c yearToken then
    Ok (to_string (years (fields this)))
  else Ok [].

Fixpoint renderOrder (this : DateTime) (format : DateTimeFormat) (order result : list ascii)
  : outcome (list ascii) :=
  match order with
  | [] => Ok result
  | c :: order =>
      piece ← renderOrderField this format c;
      renderOrder this format order (result ++ piece ++ [delimiter format])
  end.

(** [result[result.length() - 1] = ' '], which has no defined behaviour on
    an empty string. *)
Definition set_last (c : ascii) (result : list ascii) : outcome (list ascii) :=
  match result with
  | [] => Undefined
  | _ => Ok (removelast result ++ [c])
  end.

(** [DateTime::toString(const DateTimeFormat& format)] *)
Definition toString (this : DateTime) (format : DateTimeFormat) : outcome (list ascii) :=
  let f := fields this in
  let result := [] in
  result ← (if showDotw format then
              name ← map_at dotwStrMap (dotw f);
              Ok (result ++ (if fullNames format then name ++ text ", "
                             else take shortStrLength name ++ text ", "))
            else Ok result);
  result ← renderOrder this format (order format) result;
  result ← set_last " " result;
  let result :=
    if showTime format then
      let am := hours f <? 12 in
      let hours12 := to_uchar (Z.rem (hours f) 12) in
      let hours12 := if hours12 =? 0 then 12 else hours12 in
      let shown := if _12Hours format then hours12 else hours f in
      let result :=
        result ++ (if fillZeros format then padZeros shown ++ text ":"
                   else to_string shown ++ text ":") in
      let result :=
        result ++ (if fillZeros format then padZeros (minutes f) ++ text ":"
                   else to_string (minutes f) ++ text ":") in
      let result :=
        result ++ (if fillZeros format then padZeros (seconds f) ++ text " "
                   else to_string (seconds f) ++ text " ") in
      if _12Hours format then result ++ (if am then text "AM " else text "PM ") else result
    else result in
  let result :=
    if showUTCoffset format then
      let isPositive := PrimFloat.leb 0%float (timezoneOffset this) in
      let result := result ++ (if isPositive then text "+" else []) in
      result ++ (if fillZeros format then padZeros_double (timezoneOffset this) ++ text " UTC"
                 else to_string_double (timezoneOffset this) ++ text " UTC")
    else result in
  Ok result.

(** [DateTime::toString(const std::string& format)] *)
Definition toString_from_string (this : DateTime) (format : list ascii)
  : outcome (list ascii) :=
  fmt ← DateTimeFormat_from_string format;
  toString this fmt.

(** [DateTime::operator/].  Integer division by zero, and the one quotient
    that does not fit [long long], have no defined behaviour in C++: no
    exception is thrown. *)
Definition operator_div (this other : DateTime) : outcome DateTime :=
  a ← stoll (unix_str this);
  b ← stoll (unix_str other);
  if b =? 0 then Undefined
  else if (a =? LLONG_MIN) && (b =? -1) then Undefined
  else DateTime_from_string (to_string (Z.quot a b)) 0%float.

(** [DateTime::operator+], in two's complement. *)
Definition operator_add (this other : DateTime) : outcome DateTime :=
  a ← stoll (unix_str this);
  b ← stoll (unix_str other);
  DateTime_from_string (to_string (to_ll (a + b))) 0%float.


(** * Definitions used to state the properties *)

(** Days of the year before month [month] (0-based). *)
Definition daysBeforeMonth (year month : Z) : Z :=
  nth (Z.to_nat month) [0; 31; 59; 90; 120; 151; 181; 212; 243; 273; 304; 334] 0
  + (if isLeapYear year && (2 <=? month) then 1 else 0).

Definition walkMonths_post (days year : Z) (r : outcome (Z * Z)) : Prop :=
  match r with
  | Ok (d, m) =>
      0 <= m <= 11 /\ days = daysBeforeMonth year m + d /\
      exists monthDays, daysInMonth year m = Ok monthDays /\ 0 <= d < monthDays
  | _ => False
  end.

(** The value [dotwByDate] computes once its argument checks pass. *)
Definition zellerTrunc (year month day : Z) : Z :=
  let m := if month <? 3 then month + 12 else month in
  let y := if month <? 3 then year - 1 else year in
  let K := Z.rem y 100 in
  let J := Z.quot y 100 in
  let h := Z.rem (day + Z.quot (13 * (m + 1)) 5 + K + Z.quot K 4 + Z.quot J 4 + 5 * J) 7 in
  Z.rem (h - 1 + 7) 7.

(** The year walk [parseUnix] runs on a day count. *)
Definition walkYears (days : Z) : outcome (Z * Z) :=
  if days >=? 0
  then walkYearsForward (yearFuel days) days defYears
  else walkYearsBackward (yearFuel days) days defYears.

Definition adjustedUnix (_unix : Z) (timezoneOffset : float) : Z :=
  to_ll (_unix + double_to_ll (PrimFloat.mul timezoneOffset 3600%float)).

(** Days from 1970-01-01 to the civil date [y]-[m]-[d] (1-based month and
    day) in the proleptic Gregorian calendar, by the closed form over
    400-year eras and March-based years; it shares nothing with the walks. *)
Definition days_from_civil (y m d : Z) : Z :=
  let y := if m <=? 2 then y - 1 else y in
  let era := y / 400 in
  let yoe := y - era * 400 in
  let mp := if m >? 2 then m - 3 else m + 9 in
  let doy := (153 * mp + 2) / 5 + d - 1 in
  let doe := yoe * 365 + yoe / 4 - yoe / 100 + doy in
  era * 146097 + doe - 719468.

(** The epoch second count of a field tuple. *)
Definition civil_to_epoch (f : CalendarFields) : Z :=
  days_from_civil (years f) (months f + 1) (days f + 1) * 86400
  + hours f * 3600 + minutes f * 60 + seconds f.

(** The congruence with floor division and non-negative remainders, as the
    specification words it. *)
Definition zellerFloor (year month day : Z) : Z :=
  let m := if month <? 3 then month + 12 else month in
  let y := if month <? 3 then year - 1 else year in
  let K := y mod 100 in
  let J := y / 100 in
  let h := (day + (13 * (m + 1)) / 5 + K + K / 4 + J / 4 + 5 * J) mod 7 in
  (h - 1 + 7) mod 7.

(** Every character kept at its first occurrence only, in the order of the
    first occurrences. *)
Fixpoint firstOccurrences (l : list ascii) : list ascii :=
  match l with
  | [] => []
  | c :: l => c :: filter (fun x => x <> c) (firstOccurrences l)
  end.

(** The order-string of a format: its d, m, y and a characters. *)
Definition orderTokens (newFormat : list ascii) : list ascii :=
  filter (fun c => isOrderToken c) newFormat.

(** The indices of the order tokens of a string, ascending. *)
Fixpoint orderTokenPositions (l : list ascii) : list nat :=
  match l with
  | [] => []
  | c :: l => (if isOrderToken c then [0%nat] else []) ++ map S (orderTokenPositions l)
  end.

(** The characters right after the first [n] order tokens, where there is one. *)
Definition followersOfFirst (n : nat) (l : list ascii) : list ascii :=
  omap (fun p => l !! S p) (take n (orderTokenPositions l)).

(** Some index holds [token] with [token] again right after it. *)
Definition doubledAt (token : ascii) (l : list ascii) : Prop :=
  exists i : nat, l !! i = Some token /\ l !! S i = Some token.

(** * The rest of [class DateTime] *)

(** [strtoll(str, nullptr, 10)]: as [stoll] reads, but nothing is thrown: no
    digits give 0 and a value out of range is clamped. *)
Definition strtoll (str : list ascii) : Z :=
  let str := skip_spaces str in
  let '(negative, str) :=
    match str with
    | c :: rest =>
        if Ascii.eqb c "-" then (true, rest)
        else if Ascii.eqb c "+" then (false, rest)
        else (false, str)
    | [] => (false, str)
    end in
  if negb (starts_with_digit str) then 0
  else
    let magnitude := parse_digits 0 str in
    let value := if negative then - magnitude else magnitude in
    if value <? LLONG_MIN then LLONG_MIN
    else if LLONG_MAX <? value then LLONG_MAX
    else value.

(** [DateTime::DateTime(char* _unix, timezone_offset_t timezoneOffset)], on
    the characters of the C string. *)
Definition DateTime_from_literal (_unix : list ascii) (offset : float) : outcome DateTime :=
  catch_all
    (f ← parseUnix (strtoll _unix) offset;
     Ok (mkDateTime _unix f offset))
    (invalid_argument "Your unix timestamp is invalid.").

(** [DateTime::dayOfTheWeekendStr(bool full)] *)
Definition dayOfTheWeekendStr (this : DateTime) (full : bool) : outcome (list ascii) :=
  if to_uchar (dotw (fields this)) >? 6
  then Throw (invalid_argument "Invalid day of the week.")
  else
    result ← map_at dotwStrMap (dotw (fields this));
    if negb full && (length result <? shortStrLength)%nat
    then Throw (runtime_error "Short length is larger than the actual string.")
    else Ok (if full then result else take shortStrLength result).

(** [DateTime::dotwStr(bool full)] *)
Definition dotwStr (this : DateTime) (full : bool) : outcome (list ascii) :=
  dayOfTheWeekendStr this full.

(** The comparison operators: both stored texts are parsed again, the left
    one first. *)
Definition operator_lt (this other : DateTime) : outcome bool :=
  a ← stoll (unix_str this);
  b ← stoll (unix_str other);
  Ok (a <? b).

Definition operator_gt (this other : DateTime) : outcome bool :=
  a ← stoll (unix_str this);
  b ← stoll (unix_str other);
  Ok (a >? b).

Definition operator_eq (this other : DateTime) : outcome bool :=
  a ← stoll (unix_str this);
  b ← stoll (unix_str other);
  Ok (a =? b).

Definition operator_le (this other : DateTime) : outcome bool :=
  a ← stoll (unix_str this);
  b ← stoll (unix_str other);
  Ok (a <=? b).

Definition operator_ge (this other : DateTime) : outcome bool :=
  a ← stoll (unix_str this);
  b ← stoll (unix_str other);
  Ok (a >=? b).

(** [DateTime::operator-] and [DateTime::operator*], in two's complement. *)
Definition operator_sub (this other : DateTime) : outcome DateTime :=
  a ← stoll (unix_str this);
  b ← stoll (unix_str other);
  DateTime_from_string (to_string (to_ll (a - b))) 0%float.

Definition operator_mul (this other : DateTime) : outcome DateTime :=
  a ← stoll (unix_str this);
  b ← stoll (unix_str other);
  DateTime_from_string (to_string (to_ll (a * b))) 0%float.

(** * More definitions used to state the properties *)

(** The month lengths of a year, January first. *)
Definition monthLengths (year : Z) : list (outcome Z) :=
  map (fun month => daysInMonth year month) [0; 1; 2; 3; 4; 5; 6; 7; 8; 9; 10; 11].

(** How many of the four order tokens occur in a string. *)
Definition orderTokensPresent (newFormat : list ascii) : nat :=
  length (filter (fun t => t ∈ newFormat)
            [dayToken; monthToken; yearToken; alphabeticalMonthToken]).

(** The tokens whose doubling asks for zero-padding. *)
Definition paddingTokens : list ascii :=
  [dayToken; monthToken; yearToken; alphabeticalMonthToken;
   hourToken; minuteToken; secondToken].

(** What an arithmetic operator returns for the exact integer result
    [exact]: the DateTime of that integer wrapped to 64 bits, at offset
    zero, whose text reads back as the wrapped integer. *)
Definition arithmeticResult (r : outcome DateTime) (exact : Z) : Prop :=
  exists f,
    parseUnix (to_ll exact) 0%float = Ok f /\
    r = Ok (mkDateTime (to_string (to_ll exact)) f 0%float) /\
    stoll (to_string (to_ll exact)) = Ok (to_ll exact) /\
    (is_ll exact -> to_ll exact = exact).

(** The offset of [k] half hours, as a [double]. *)
Definition halfHours (k : Z) : float :=
  let magnitude := PrimFloat.div (PrimFloat.of_uint63 (Uint63.of_Z (Z.abs k))) 2%float in
  if k <? 0 then PrimFloat.opp magnitude else magnitude.


(** * Properties *)

(** ** Machine integers *)

Lemma wrap_signed_id (bits z : Z) :
  0 < bits -> - 2 ^ (bits - 1) <= z < 2 ^ (bits - 1) -> wrap_signed bits z = z.
Proof.
  intros Hb Hz. unfold wrap_signed.
  replace (2 ^ bits) with (2 * 2 ^ (bits - 1)).
  - rewrite Z.mod_small; lia.
  - rewrite <- Z.pow_succ_r by lia. f_equal. lia.
Qed.

Lemma to_short_id (z : Z) : -32768 <= z <= 32767 -> to_short z = z.
Proof. intros. apply wrap_signed_id; simpl; lia. Qed.

Lemma to_int_id (z : Z) : -2147483648 <= z <= 2147483647 -> to_int z = z.
Proof. intros. apply wrap_signed_id; simpl; lia. Qed.

Lemma to_ll_id (z : Z) : is_ll z -> to_ll z = z.
Proof. unfold is_ll, LLONG_MIN, LLONG_MAX. intros. apply wrap_signed_id; simpl; lia. Qed.

Lemma to_ll_range (z : Z) : is_ll (to_ll z).
Proof.
  unfold is_ll, LLONG_MIN, LLONG_MAX, to_ll, wrap_signed.
  pose proof (Z.mod_pos_bound (z + 2 ^ (64 - 1)) (2 ^ 64) ltac:(lia)).
  change (2 ^ (64 - 1)) with 9223372036854775808 in *.
  change (2 ^ 64) with 18446744073709551616 in *.
  change (2 ^ 63) with 9223372036854775808. lia.
Qed.

Lemma to_short_range (z : Z) : -32768 <= to_short z <= 32767.
Proof.
  unfold to_short, wrap_signed.
  pose proof (Z.mod_pos_bound (z + 2 ^ (16 - 1)) (2 ^ 16) ltac:(lia)).
  change (2 ^ (16 - 1)) with 32768 in *. change (2 ^ 16) with 65536 in *. lia.
Qed.

Lemma to_uchar_id (z : Z) : 0 <= z <= 255 -> to_uchar z = z.
Proof. intros. unfold to_uchar. apply Z.mod_small. lia. Qed.

(** ** Leap years *)

Lemma rem_zero_iff_divide (a b : Z) : b <> 0 -> Z.rem a b = 0 <-> (b | a).
Proof.
  intros Hb. rewrite Z.rem_divide by assumption. reflexivity.
Qed.

(** C6: [isLeapYear] is the Gregorian rule, for every year of either sign:
    true exactly when the year is divisible by 4 and, if divisible by 100,
    also by 400. *)
Theorem isLeapYear_gregorian (year : Z) :
  isLeapYear year = true <->
  (4 | year) /\ (¬ (100 | year) \/ (400 | year)).
Proof.
  unfold isLeapYear.
  rewrite andb_true_iff, orb_true_iff, negb_true_iff.
  rewrite <- !rem_zero_iff_divide by lia.
  rewrite !Z.eqb_eq, Z.eqb_neq. reflexivity.
Qed.

Lemma isLeapYear_table :
  isLeapYear 0 = true /\ isLeapYear 1900 = false /\ isLeapYear 2000 = true /\
  isLeapYear 1972 = true /\ isLeapYear 2100 = false /\
  isLeapYear (-4) = true /\ isLeapYear (-100) = false /\ isLeapYear (-400) = true.
Proof. repeat split; reflexivity. Qed.

(** ** The split into days and second of the day *)

Lemma remainder_fits_int (adjustedUnix : Z) :
  to_int (Z.rem adjustedUnix secondsInDay) = Z.rem adjustedUnix secondsInDay.
Proof.
  apply to_int_id. unfold secondsInDay.
  pose proof (Z.rem_bound_abs adjustedUnix 86400 ltac:(lia)). lia.
Qed.

Lemma splitDays_div_mod (adjustedUnix : Z) :
  splitDays adjustedUnix = (adjustedUnix / secondsInDay, adjustedUnix mod secondsInDay).
Proof.
  unfold splitDays. rewrite remainder_fits_int. unfold secondsInDay.
  destruct (Z.ltb_spec (Z.rem adjustedUnix 86400) 0); f_equal;
    Z.to_euclidean_division_equations; lia.
Qed.


(** ** The year and month walks *)

Lemma daysInYear_bounds (year : Z) : 365 <= daysInYear year <= 366.
Proof. unfold daysInYear. destruct (isLeapYear year); lia. Qed.

Lemma div365_le_pred (a b : Z) : b <= a - 365 -> b / 365 <= a / 365 - 1.
Proof.
  intros H. replace (a / 365 - 1) with ((a + (-1) * 365) / 365).
  - apply Z.div_le_mono; lia.
  - rewrite Z.div_add by lia. lia.
Qed.

Lemma walkYearsForward_terminates (fuel : nat) :
  forall days year,
    0 <= days -> days / 365 < Z.of_nat fuel ->
    exists d y, walkYearsForward fuel days year = Ok (d, y) /\ 0 <= d < daysInYear y.
Proof.
  induction fuel as [|fuel IH]; intros days year Hd Hf.
  - pose proof (Z.div_pos days 365 Hd eq_refl). lia.
  - cbn [walkYearsForward].
    pose proof (daysInYear_bounds year) as Hy.
    destruct (Z.geb_spec days (daysInYear year)) as [Hge|Hlt].
    + apply IH; [lia|].
      pose proof (div365_le_pred days (days - daysInYear year) ltac:(lia)). lia.
    + exists days, year. split; [reflexivity | lia].
Qed.

Lemma walkYearsBackward_terminates (fuel : nat) :
  forall days year,
    days < daysInYear year ->
    (0 < fuel)%nat -> (days < 0 -> (- days) / 365 + 1 < Z.of_nat fuel) ->
    exists d y, walkYearsBackward fuel days year = Ok (d, y) /\ 0 <= d < daysInYear y.
Proof.
  induction fuel as [|fuel IH]; intros days year Hd Hpos Hf; [lia|].
  cbn [walkYearsBackward].
  destruct (Z.ltb_spec days 0) as [Hneg|Hnn].
  - pose proof (daysInYear_bounds (to_short (year - 1))) as Hy.
    specialize (Hf Hneg).
    pose proof (Z.div_pos (- days) 365 ltac:(lia) eq_refl) as Hq.
    cbv zeta. set (d' := days + daysInYear (to_short (year - 1))).
    apply IH; [subst d'; clear - Hneg; lia | clear - Hf Hq; lia |].
    intros Hn.
    pose proof (div365_le_pred (- days) (- d') ltac:(subst d'; clear - Hn Hneg Hy; lia)).
    clear - H Hf. lia.
  - exists days, year. split; [reflexivity | lia].
Qed.

(** More fuel never changes what a walk returns. *)
Lemma walkYearsForward_fuel_mono (fuel fuel' : nat) :
  forall days year r,
    (fuel <= fuel')%nat ->
    walkYearsForward fuel days year = Ok r -> walkYearsForward fuel' days year = Ok r.
Proof.
  revert fuel'. induction fuel as [|fuel IH]; intros fuel' days year r Hle H.
  - discriminate.
  - destruct fuel' as [|fuel']; [lia|]. cbn [walkYearsForward] in *.
    destruct (days >=? daysInYear year); [|assumption].
    apply IH; [lia | assumption].
Qed.

Lemma walkYearsBackward_fuel_mono (fuel fuel' : nat) :
  forall days year r,
    (fuel <= fuel')%nat ->
    walkYearsBackward fuel days year = Ok r -> walkYearsBackward fuel' days year = Ok r.
Proof.
  revert fuel'. induction fuel as [|fuel IH]; intros fuel' days year r Hle H.
  - discriminate.
  - destruct fuel' as [|fuel']; [lia|]. cbn [walkYearsBackward] in *.
    destruct (days <? 0); [|assumption].
    apply IH; [lia | assumption].
Qed.

Lemma walkMonths_fuel_mono (fuel fuel' : nat) :
  forall days year month r,
    (fuel <= fuel')%nat ->
    walkMonths fuel days year month = Ok r -> walkMonths fuel' days year month = Ok r.
Proof.
  revert fuel'. induction fuel as [|fuel IH]; intros fuel' days year month r Hle H.
  - discriminate.
  - destruct fuel' as [|fuel']; [lia|]. cbn [walkMonths] in *.
    destruct (daysInMonth year month) as [monthDays| | |]; cbn [mbind outcome_bind] in *;
      try discriminate.
    destruct (days >=? monthDays); [|assumption].
    apply IH; [lia | assumption].
Qed.

Lemma yearFuel_enough (days : Z) : Z.abs days / 365 + 1 < Z.of_nat (yearFuel days).
Proof.
  unfold yearFuel. pose proof (Z.div_pos (Z.abs days) 365 (Z.abs_nonneg _) eq_refl). lia.
Qed.

Lemma daysInMonth_ok (year month : Z) :
  0 <= month <= 11 ->
  daysInMonth year month =
    Ok (if (month =? 1) && isLeapYear year then 29 else nth (Z.to_nat month) days_table 0).
Proof.
  intros H. unfold daysInMonth.
  destruct (Z.ltb_spec month 0); [lia|].
  destruct (Z.gtb_spec month 11); [lia|]. reflexivity.
Qed.

Lemma walkMonths_step (fuel : nat) (days year month : Z) :
  0 <= month <= 11 ->
  walkMonths (S fuel) days year month =
    let monthDays :=
      if (month =? 1) && isLeapYear year then 29 else nth (Z.to_nat month) days_table 0 in
    if days >=? monthDays
    then walkMonths fuel (days - monthDays) year (month + 1)
    else Ok (days, month).
Proof.
  intros H. cbn [walkMonths]. rewrite daysInMonth_ok by assumption.
  cbn [mbind outcome_bind]. cbv zeta.
  rewrite (to_uchar_id (month + 1)) by lia. reflexivity.
Qed.

Ltac eval_closed t := let v := eval vm_compute in t in change t with v.

Ltac month_table m :=
  eval_closed (nth (Z.to_nat m) days_table 0);
  eval_closed (m =? 1); cbn [andb].

Ltac month_done m :=
  cbn [walkMonths_post]; split; [lia|]; split;
  [ unfold daysBeforeMonth;
    eval_closed (nth (Z.to_nat m) [0; 31; 59; 90; 120; 151; 181; 212; 243; 273; 304; 334] 0);
    eval_closed (2 <=? m);
    match goal with Hl : isLeapYear _ = _ |- _ => rewrite Hl end; cbn [andb]; lia
  | rewrite daysInMonth_ok by lia; eexists; split; [reflexivity|]; month_table m;
    match goal with Hl : isLeapYear _ = _ |- _ => try rewrite Hl end; lia ].

Ltac month_step :=
  match goal with
  | |- context [walkMonths (S ?f) ?d ?y ?m] =>
      rewrite (walkMonths_step f d y m) by lia; cbv zeta; month_table m;
      eval_closed (m + 1);
      match goal with Hl : isLeapYear _ = _ |- _ => try rewrite Hl end;
      match goal with
      | |- context [d >=? ?n] => destruct (Z.geb_spec d n); [ idtac | month_done m ]
      end
  end.

Lemma walkMonths_terminates (days year : Z) :
  0 <= days < daysInYear year ->
  walkMonths_post days year (walkMonths monthFuel days year defMonth).
Proof.
  unfold daysInYear, monthFuel, defMonth. intros H.
  destruct (isLeapYear year) eqn:Hleap.
  all: do 12 (try month_step).
  all: exfalso; lia.
Qed.

(** ** Day of the week *)

Lemma dotwByDate_ok (year month day monthDays : Z) :
  1 <= month <= 12 ->
  daysInMonth year (month - 1) = Ok monthDays ->
  1 <= day <= monthDays ->
  dotwByDate year month day = Ok (zellerTrunc year month day).
Proof.
  intros Hm Hmd Hd. unfold dotwByDate, zellerTrunc.
  destruct (Z.ltb_spec month 1); [lia|].
  destruct (Z.gtb_spec month 12); [lia|]. cbn [orb].
  rewrite (to_uchar_id (month - 1)) by lia. rewrite Hmd. cbn [mbind outcome_bind].
  destruct (Z.ltb_spec day 1); [lia|].
  destruct (Z.gtb_spec day monthDays); [lia|]. cbn [orb].
  destruct (month <? 3); reflexivity.
Qed.

Lemma zellerTrunc_range (year month day : Z) : 0 <= zellerTrunc year month day <= 6.
Proof.
  unfold zellerTrunc. cbv zeta.
  match goal with |- context [Z.rem (Z.rem ?a 7 - 1 + 7) 7] => generalize a end.
  intros a. Z.to_euclidean_division_equations. lia.
Qed.

Lemma daysInMonth_le_31 (year month monthDays : Z) :
  daysInMonth year month = Ok monthDays -> 28 <= monthDays <= 31.
Proof.
  unfold daysInMonth.
  destruct (Z.ltb_spec month 0); [discriminate|].
  destruct (Z.gtb_spec month 11); [discriminate|]. cbn [orb].
  intros [= <-].
  destruct ((month =? 1) && isLeapYear year); [lia|].
  assert (Hm : month = 0 \/ month = 1 \/ month = 2 \/ month = 3 \/ month = 4 \/ month = 5 \/
               month = 6 \/ month = 7 \/ month = 8 \/ month = 9 \/ month = 10 \/ month = 11) by lia.
  repeat (destruct Hm as [->|Hm]); try subst month; vm_compute; split; discriminate.
Qed.

(** ** The epoch conversion as a whole *)

Lemma walkYears_terminates (days : Z) :
  exists d y, walkYears days = Ok (d, y) /\ 0 <= d < daysInYear y.
Proof.
  unfold walkYears. pose proof (yearFuel_enough days) as Hf.
  destruct (Z.geb_spec days 0) as [Hge|Hlt].
  - apply walkYearsForward_terminates; [lia|].
    rewrite Z.abs_eq in Hf by lia. lia.
  - pose proof (daysInYear_bounds defYears).
    apply walkYearsBackward_terminates; [lia | unfold yearFuel; lia |].
    intros _. rewrite Z.abs_neq in Hf by lia. lia.
Qed.

Lemma parseUnix_decompose (_unix : Z) (timezoneOffset : float) :
  let D := fst (splitDays (adjustedUnix _unix timezoneOffset)) in
  let r := snd (splitDays (adjustedUnix _unix timezoneOffset)) in
  exists dy y d m monthDays,
    walkYears D = Ok (dy, y) /\
    walkMonths monthFuel dy y defMonth = Ok (d, m) /\
    0 <= dy < daysInYear y /\
    0 <= m <= 11 /\ dy = daysBeforeMonth y m + d /\
    daysInMonth y m = Ok monthDays /\ 0 <= d < monthDays /\
    parseUnix _unix timezoneOffset =
      Ok {| years := y; months := m; dotw := zellerTrunc y (m + 1) (d + 1); days := d;
            hours := r / 3600; minutes := r mod 3600 / 60; seconds := r mod 3600 mod 60 |}.
Proof.
  intros D r.
  destruct (walkYears_terminates D) as (dy & y & Hwy & Hdy).
  pose proof (walkMonths_terminates dy y Hdy) as Hwm.
  destruct (walkMonths monthFuel dy y defMonth) as [[d m]| | |] eqn:Ewm; try contradiction.
  destruct Hwm as (Hm & Hsum & monthDays & Hmd & Hd).
  exists dy, y, d, m, monthDays. repeat (split; [reflexivity || assumption || lia|]).
  pose proof (daysInMonth_le_31 _ _ _ Hmd) as Hle.
  assert (Hr : 0 <= r < 86400).
  { subst r. rewrite splitDays_div_mod. cbn [snd]. apply Z.mod_pos_bound. reflexivity. }
  unfold parseUnix. fold (adjustedUnix _unix timezoneOffset).
  destruct (splitDays (adjustedUnix _unix timezoneOffset)) as [D' r'] eqn:Esplit.
  cbn [fst snd] in D, r. subst D r.
  unfold walkYears in Hwy. rewrite Hwy. cbn [mbind outcome_bind].
  rewrite Ewm. cbn [mbind outcome_bind].
  rewrite (to_uchar_id (m + 1)), (to_uchar_id (d + 1)), (to_uchar_id d) by lia.
  rewrite (dotwByDate_ok y (m + 1) (d + 1) monthDays);
    [| lia | replace (m + 1 - 1) with m by lia; assumption | lia].
  cbn [mbind outcome_bind]. unfold secondsInHour, secondsInMinute.
  rewrite !Z.quot_div_nonneg, !Z.rem_mod_nonneg; try lia.
  - rewrite !to_uchar_id; [reflexivity | | |];
      Z.to_euclidean_division_equations; lia.
  - Z.to_euclidean_division_equations; lia.
  - Z.to_euclidean_division_equations; lia.
Qed.

(** C3: for every epoch and every offset the year walk and the month walk
    of [parseUnix] come to an end: each returns the same result for every
    amount of fuel from the one [parseUnix] gives it on, no exception is
    thrown, and the fields of the result satisfy 0 <= month <= 11 and
    0 <= day < daysInMonth(year, month). *)
Theorem parseUnix_terminates_in_range (_unix : Z) (timezoneOffset : float) :
  let D := fst (splitDays (adjustedUnix _unix timezoneOffset)) in
  exists f monthDays dayOfYear,
    (forall fuel, (yearFuel D <= fuel)%nat ->
       (if D >=? 0 then walkYearsForward fuel D defYears
        else walkYearsBackward fuel D defYears) = Ok (dayOfYear, years f)) /\
    (forall fuel, (monthFuel <= fuel)%nat ->
       walkMonths fuel dayOfYear (years f) defMonth = Ok (days f, months f)) /\
    parseUnix _unix timezoneOffset = Ok f /\
    0 <= months f <= 11 /\
    daysInMonth (years f) (months f) = Ok monthDays /\
    0 <= days f < monthDays.
Proof.
  intros D.
  destruct (parseUnix_decompose _unix timezoneOffset)
    as (dy & y & d & m & monthDays & Hwy & Ewm & Hdy & Hm & Hsum & Hmd & Hd & Hp).
  fold D in Hwy.
  eexists _, monthDays, dy. split; [|split; [|split; [exact Hp|]]].
  - intros fuel Hfuel. cbn [years]. unfold walkYears in Hwy.
    destruct (D >=? 0).
    + eapply walkYearsForward_fuel_mono; eassumption.
    + eapply walkYearsBackward_fuel_mono; eassumption.
  - intros fuel Hfuel. cbn [years months days].
    eapply walkMonths_fuel_mono; eassumption.
  - cbn [years months days]. auto.
Qed.

Example parseUnix_epoch_zero :
  parseUnix 0 0%float = Ok (mkFields 1970 0 Thursday 0 0 0 0).
Proof. vm_compute. reflexivity. Qed.

Example parseUnix_day_before_epoch :
  parseUnix (-86400) 0%float = Ok (mkFields 1969 11 Wednesday 30 0 0 0).
Proof. vm_compute. reflexivity. Qed.

Example parseUnix_with_offset :
  parseUnix 951782399 1.5%float = Ok (mkFields 2000 1 Tuesday 28 1 29 59).
Proof. vm_compute. reflexivity. Qed.

(** ** Round trip through an independent epoch-day formula *)

Lemma days_from_civil_epoch : days_from_civil 1970 1 1 = 0.
Proof. reflexivity. Qed.

Lemma days_from_civil_next_year (y : Z) :
  days_from_civil (y + 1) 1 1 = days_from_civil y 1 1 + daysInYear y.
Proof.
  unfold days_from_civil, daysInYear, isLeapYear. cbn [Z.leb Z.gtb Z.compare Pos.compare Pos.compare_cont].
  cbv zeta. replace (y + 1 - 1) with y by lia.
  change ((153 * (1 + 9) + 2) / 5) with 306.
  destruct (Z.eqb_spec (Z.rem y 4) 0), (Z.eqb_spec (Z.rem y 100) 0), (Z.eqb_spec (Z.rem y 400) 0);
    cbn [andb orb negb];
    Z.to_euclidean_division_equations; lia.
Qed.

Lemma days_from_civil_month (y m d : Z) :
  0 <= m <= 11 ->
  days_from_civil y (m + 1) (d + 1) = days_from_civil y 1 1 + daysBeforeMonth y m + d.
Proof.
  intros Hm.
  assert (Hcases : m = 0 \/ m = 1 \/ m = 2 \/ m = 3 \/ m = 4 \/ m = 5 \/
                   m = 6 \/ m = 7 \/ m = 8 \/ m = 9 \/ m = 10 \/ m = 11) by lia.
  clear Hm.
  repeat (destruct Hcases as [->|Hcases]); try subst m.
  all: unfold days_from_civil, daysBeforeMonth, isLeapYear.
  all: match goal with
       | |- context [nth (Z.to_nat ?m) ?l 0] => eval_closed (nth (Z.to_nat m) l 0)
       end.
  all: match goal with
       | |- context [?m + 1 <=? 2] =>
           eval_closed (m + 1 <=? 2); eval_closed (m + 1 >? 2); eval_closed (2 <=? m)
       end.
  all: eval_closed (1 <=? 2); eval_closed (1 >? 2).
  all: cbv zeta.
  all: repeat match goal with
       | |- context [(153 * ?mp + 2) / 5] => eval_closed ((153 * mp + 2) / 5)
       end.
  all: destruct (Z.eqb_spec (Z.rem y 4) 0), (Z.eqb_spec (Z.rem y 100) 0),
         (Z.eqb_spec (Z.rem y 400) 0); cbn [andb orb negb].
  all: Z.to_euclidean_division_equations; lia.
Qed.

(** While the year stays inside [short], both year walks keep the day
    number [days_from_civil year 1 1 + days] unchanged. *)
Lemma walkYearsForward_civil (fuel : nat) :
  forall days year d y,
    0 <= days -> -32768 <= year -> year + days / 365 <= 32767 ->
    walkYearsForward fuel days year = Ok (d, y) ->
    days_from_civil y 1 1 + d = days_from_civil year 1 1 + days.
Proof.
  induction fuel as [|fuel IH]; intros days year d y Hd Hlo Hhi; [discriminate|].
  cbn [walkYearsForward].
  pose proof (daysInYear_bounds year) as Hy.
  destruct (Z.geb_spec days (daysInYear year)) as [Hge|Hlt].
  - pose proof (div365_le_pred days (days - daysInYear year) ltac:(lia)) as Hq.
    pose proof (Z.div_pos (days - daysInYear year) 365 ltac:(lia) eq_refl) as Hq0.
    rewrite to_short_id by lia.
    intros Hw. apply IH in Hw; [| lia | lia | lia].
    rewrite Hw, days_from_civil_next_year. lia.
  - intros [= <- <-]. reflexivity.
Qed.

Lemma walkYearsBackward_civil (fuel : nat) :
  forall days year d y,
    year <= 32767 -> (days < 0 -> -32768 <= year - 1 - (- days) / 365) ->
    walkYearsBackward fuel days year = Ok (d, y) ->
    days_from_civil y 1 1 + d = days_from_civil year 1 1 + days.
Proof.
  induction fuel as [|fuel IH]; intros days year d y Hhi Hlo; [discriminate|].
  cbn [walkYearsBackward].
  destruct (Z.ltb_spec days 0) as [Hneg|Hnn].
  - specialize (Hlo Hneg).
    pose proof (Z.div_pos (- days) 365 ltac:(lia) eq_refl) as Hq0.
    cbv zeta. rewrite to_short_id by lia.
    pose proof (daysInYear_bounds (year - 1)) as Hy.
    intros Hw. apply IH in Hw; [| lia |].
    + rewrite Hw. pose proof (days_from_civil_next_year (year - 1)) as Hn.
      replace (year - 1 + 1) with year in Hn by lia. lia.
    + intros Hn.
      pose proof (div365_le_pred (- days) (- (days + daysInYear (year - 1))) ltac:(lia)).
      lia.
  - intros [= <- <-]. reflexivity.
Qed.

Lemma walkYears_civil (D d y : Z) :
  -12000000 <= D <= 11000000 ->
  walkYears D = Ok (d, y) ->
  days_from_civil y 1 1 + d = D.
Proof.
  intros HD. unfold walkYears, defYears.
  destruct (Z.geb_spec D 0) as [Hge|Hlt]; intros Hw.
  - apply walkYearsForward_civil in Hw; [rewrite Hw; reflexivity | lia | lia |].
    assert (D / 365 <= 11000000 / 365) by (apply Z.div_le_mono; lia).
    change (11000000 / 365) with 30136 in *. lia.
  - apply walkYearsBackward_civil in Hw; [rewrite Hw; reflexivity | lia |].
    intros _.
    assert (- D / 365 <= 12000000 / 365) by (apply Z.div_le_mono; lia).
    change (12000000 / 365) with 32876 in *. lia.
Qed.

Lemma timezoneSeconds_zero : double_to_ll (PrimFloat.mul 0%float 3600%float) = 0.
Proof. reflexivity. Qed.

(** The round trip holds as long as the year fits [short]; the day counts
    below cover the years -30884 to 32086.  The fields are a calendar date
    and a clock time (every field in its range), the date is the one whose
    day number is the floor of [e / 86400], and the time is the second of
    that day. *)
Lemma parseUnix_roundtrip_days (e : Z) :
  -12000000 * 86400 <= e <= 11000000 * 86400 ->
  exists f monthDays,
    parseUnix e 0%float = Ok f /\
    0 <= months f <= 11 /\
    daysInMonth (years f) (months f) = Ok monthDays /\
    0 <= days f < monthDays /\
    0 <= hours f <= 23 /\ 0 <= minutes f <= 59 /\ 0 <= seconds f <= 59 /\
    days_from_civil (years f) (months f + 1) (days f + 1) = e / 86400 /\
    hours f * 3600 + minutes f * 60 + seconds f = e mod 86400 /\
    civil_to_epoch f = e.
Proof.
  intros He.
  destruct (parseUnix_decompose e 0%float)
    as (dy & y & d & m & monthDays & Hwy & _ & Hdy & Hm & Hsum & Hmd & Hd & Hp).
  unfold adjustedUnix in *. rewrite timezoneSeconds_zero, Z.add_0_r in *.
  rewrite to_ll_id in * by (unfold is_ll, LLONG_MIN, LLONG_MAX; lia).
  rewrite splitDays_div_mod in *. cbn [fst snd] in *. unfold secondsInDay in *.
  eexists _, monthDays. split; [exact Hp|].
  unfold civil_to_epoch. cbn [years months days hours minutes seconds].
  apply walkYears_civil in Hwy; [|Z.to_euclidean_division_equations; lia].
  assert (Hday : days_from_civil y (m + 1) (d + 1) = e / 86400)
    by (rewrite days_from_civil_month by assumption; lia).
  pose proof (Z.mod_pos_bound e 86400 eq_refl) as Hr.
  pose proof (Z.div_mod e 86400 ltac:(lia)) as He'.
  rewrite Hday.
  set (D := e / 86400) in *. set (r := e mod 86400) in *. clearbody D r.
  split; [exact Hm|]. split; [exact Hmd|]. split; [exact Hd|].
  repeat split; try reflexivity; Z.to_euclidean_division_equations; lia.
Qed.

(** C1: for every epoch [e] between -10,000,000,000 and 10,000,000,000, at
    UTC offset 0, [parseUnix] returns calendar fields (month 0..11, day
    within the month, hour 0..23, minute and second 0..59) whose date has
    the day number [e / 86400] under the independent epoch-day formula
    [days_from_civil], whose time is the second [e mod 86400] of that day,
    and whose (year, month, day, hour, minute, second), encoded back to
    seconds through that formula, give exactly [e]. *)
Theorem parseUnix_roundtrip (e : Z) :
  -10000000000 <= e <= 10000000000 ->
  exists f monthDays,
    parseUnix e 0%float = Ok f /\
    0 <= months f <= 11 /\
    daysInMonth (years f) (months f) = Ok monthDays /\
    0 <= days f < monthDays /\
    0 <= hours f <= 23 /\ 0 <= minutes f <= 59 /\ 0 <= seconds f <= 59 /\
    days_from_civil (years f) (months f + 1) (days f + 1) = e / 86400 /\
    hours f * 3600 + minutes f * 60 + seconds f = e mod 86400 /\
    civil_to_epoch f = e.
Proof.
  intros He. apply parseUnix_roundtrip_days. lia.
Qed.

Lemma parseUnix_roundtrip_witness :
  -10000000000 <= 951782400 <= 10000000000 /\
  exists f monthDays,
    parseUnix 951782400 0%float = Ok f /\
    0 <= months f <= 11 /\
    daysInMonth (years f) (months f) = Ok monthDays /\
    0 <= days f < monthDays /\
    0 <= hours f <= 23 /\ 0 <= minutes f <= 59 /\ 0 <= seconds f <= 59 /\
    days_from_civil (years f) (months f + 1) (days f + 1) = 951782400 / 86400 /\
    hours f * 3600 + minutes f * 60 + seconds f = 951782400 mod 86400 /\
    civil_to_epoch f = 951782400.
Proof.
  split; [lia | apply (parseUnix_roundtrip 951782400); lia].
Defined.

(** ** Zeller's congruence *)

(** From year 1 on the shifted year is not negative, truncation is floor,
    and the code computes the congruence. *)
Lemma dotwByDate_zellerFloor (year month day monthDays : Z) :
  1 <= year ->
  1 <= month <= 12 ->
  daysInMonth year (month - 1) = Ok monthDays ->
  1 <= day <= monthDays ->
  dotwByDate year month day = Ok (zellerFloor year month day).
Proof.
  intros Hy Hm Hmd Hd.
  rewrite (dotwByDate_ok _ _ _ _ Hm Hmd Hd). f_equal.
  unfold zellerTrunc, zellerFloor. cbv zeta.
  set (m := if month <? 3 then month + 12 else month).
  set (y := if month <? 3 then year - 1 else year).
  assert (Hy0 : 0 <= y) by (subst y; destruct (month <? 3); lia).
  assert (Hm0 : 3 <= m <= 14) by (subst m; destruct (Z.ltb_spec month 3); lia).
  clearbody m y.
  rewrite (Z.rem_mod_nonneg y 100), (Z.quot_div_nonneg y 100) by lia.
  pose proof (Z.mod_pos_bound y 100 eq_refl) as HK.
  pose proof (Z.div_pos y 100 Hy0 eq_refl) as HJ.
  set (K := y mod 100) in *. set (J := y / 100) in *. clearbody K J.
  rewrite (Z.quot_div_nonneg (13 * (m + 1)) 5), (Z.quot_div_nonneg K 4),
    (Z.quot_div_nonneg J 4) by lia.
  pose proof (Z.div_pos (13 * (m + 1)) 5 ltac:(lia) eq_refl).
  pose proof (Z.div_pos K 4 ltac:(lia) eq_refl).
  pose proof (Z.div_pos J 4 HJ eq_refl).
  set (s := day + 13 * (m + 1) / 5 + K + K / 4 + J / 4 + 5 * J) in *.
  assert (Hs : 0 <= s) by (subst s; lia). clearbody s.
  rewrite (Z.rem_mod_nonneg s 7) by lia.
  pose proof (Z.mod_pos_bound s 7 eq_refl).
  rewrite Z.rem_mod_nonneg by lia. reflexivity.
Qed.

(** The floor congruence is the weekday of the day number (day 0, the first
    of January 1970, being a Thursday), whatever the sign of the year. *)
Lemma zellerFloor_weekday (year month day : Z) :
  1 <= month <= 12 ->
  zellerFloor year month day = (days_from_civil year month day + Thursday) mod 7.
Proof.
  intros Hm.
  assert (Hcases : month = 1 \/ month = 2 \/ month = 3 \/ month = 4 \/ month = 5 \/
                   month = 6 \/ month = 7 \/ month = 8 \/ month = 9 \/ month = 10 \/
                   month = 11 \/ month = 12) by lia.
  clear Hm.
  repeat (destruct Hcases as [->|Hcases]); try subst month.
  all: unfold zellerFloor, days_from_civil, Thursday.
  all: match goal with
       | |- context [?m <? 3] =>
           eval_closed (m <? 3); eval_closed (m <=? 2); eval_closed (m >? 2)
       end.
  all: cbv zeta.
  all: repeat match goal with
       | |- context [(153 * ?mp + 2) / 5] => eval_closed ((153 * mp + 2) / 5)
       end.
  all: repeat match goal with
       | |- context [13 * (?m + 1) / 5] => eval_closed (13 * (m + 1) / 5)
       end.
  all: Z.to_euclidean_division_equations; lia.
Qed.

Lemma dotwByDate_known_dates :
  dotwByDate 1970 1 1 = Ok Thursday /\
  dotwByDate 2000 1 1 = Ok Saturday /\
  dotwByDate 1600 2 29 = Ok Tuesday.
Proof. repeat split; reflexivity. Qed.

(** C5, checked on the code: for 0000-02-29 (epoch -62162121600) the code
    answers Wednesday, the floor congruence Tuesday; the day after,
    0000-03-01, is Wednesday for both.  The shifted year is -1 there, and
    [%] and [/] truncate: K is -1 instead of 99 and J is 0 instead of -1. *)
Theorem dotwByDate_truncates_before_year_one :
  dotwByDate 0 2 29 = Ok Wednesday /\
  zellerFloor 0 2 29 = Tuesday /\
  dotwByDate 0 3 1 = Ok Wednesday /\
  zellerFloor 0 3 1 = Wednesday /\
  (exists f, parseUnix (-62162121600) 0%float = Ok f /\
             (years f, months f, days f) = (0, 1, 28) /\ dotw f = Wednesday) /\
  (exists f, parseUnix (-62162035200) 0%float = Ok f /\
             (years f, months f, days f) = (0, 2, 0) /\ dotw f = Wednesday).
Proof.
  repeat split; try reflexivity.
  - eexists. split; [vm_compute; reflexivity|]. split; reflexivity.
  - eexists. split; [vm_compute; reflexivity|]. split; reflexivity.
Qed.

(** ** The format parser *)

Lemma filter_filter_comm (P Q : ascii -> Prop)
    `{forall x, Decision (P x)} `{forall x, Decision (Q x)} (l : list ascii) :
  filter P (filter Q l) = filter Q (filter P l).
Proof.
  induction l as [|x l IH]; [reflexivity|].
  rewrite !filter_cons.
  destruct (decide (Q x)), (decide (P x)); rewrite ?filter_cons;
    repeat case_decide; try contradiction; rewrite ?IH; reflexivity.
Qed.

Lemma filter_absorb (P Q : ascii -> Prop)
    `{forall x, Decision (P x)} `{forall x, Decision (Q x)} (l : list ascii) :
  (forall x, P x -> Q x) -> filter P (filter Q l) = filter P l.
Proof.
  intros HPQ. induction l as [|x l IH]; [reflexivity|].
  rewrite !filter_cons.
  destruct (decide (Q x)), (decide (P x)); rewrite ?filter_cons;
    repeat case_decide; try contradiction; rewrite ?IH; try reflexivity.
  exfalso. auto.
Qed.

Lemma firstOccurrences_filter (P : ascii -> Prop) `{forall x, Decision (P x)}
    (l : list ascii) :
  firstOccurrences (filter P l) = filter P (firstOccurrences l).
Proof.
  induction l as [|x l IH]; [reflexivity|].
  rewrite filter_cons. cbn [firstOccurrences].
  destruct (decide (P x)) as [HP|HP].
  - cbn [firstOccurrences]. rewrite filter_cons. rewrite decide_True by assumption.
    rewrite IH. f_equal. apply filter_filter_comm.
  - rewrite filter_cons. rewrite decide_False by assumption.
    rewrite IH. symmetry. apply filter_absorb. intros y Hy ->. contradiction.
Qed.

Lemma removeDuplicates_loop_spec (str : list ascii) :
  forall (seen : gset ascii) (output : list ascii),
    removeDuplicates_loop str seen output
    = output ++ firstOccurrences (filter (fun c => c ∉ seen) str).
Proof.
  induction str as [|c str IH]; intros seen output.
  - cbn. rewrite app_nil_r. reflexivity.
  - cbn [removeDuplicates_loop]. rewrite filter_cons.
    destruct (decide (c ∈ seen)) as [Hin|Hnin].
    + rewrite decide_False by (intros Hn; apply Hn; exact Hin). apply IH.
    + rewrite decide_True by assumption. rewrite IH, <- app_assoc.
      cbn [firstOccurrences app]. do 2 f_equal.
      rewrite <- firstOccurrences_filter. f_equal.
      rewrite list_filter_filter. apply list_filter_iff.
      intros x. rewrite not_elem_of_union, elem_of_singleton. tauto.
Qed.

(** [removeDuplicates] keeps first occurrences, in their order. *)
Lemma removeDuplicates_firstOccurrences (str : list ascii) :
  removeDuplicates str = firstOccurrences str.
Proof.
  unfold removeDuplicates. rewrite removeDuplicates_loop_spec. cbn [app].
  f_equal. induction str as [|x l IH]; [reflexivity|].
  rewrite filter_cons. rewrite decide_True by apply not_elem_of_empty.
  f_equal. exact IH.
Qed.

Lemma firstOccurrences_elem (l : list ascii) (x : ascii) :
  x ∈ firstOccurrences l <-> x ∈ l.
Proof.
  induction l as [|c l IH]; [reflexivity|].
  cbn [firstOccurrences]. rewrite !elem_of_cons, list_elem_of_filter, IH.
  destruct (decide (x = c)); tauto.
Qed.

Lemma firstOccurrences_NoDup (l : list ascii) : NoDup (firstOccurrences l).
Proof.
  induction l as [|c l IH]; [constructor|].
  cbn [firstOccurrences]. constructor.
  - rewrite list_elem_of_filter. intros [Hne _]. apply Hne. reflexivity.
  - apply NoDup_filter. exact IH.
Qed.

Lemma orderTokens_cons (c : ascii) (l : list ascii) :
  orderTokens (c :: l) = if isOrderToken c then c :: orderTokens l else orderTokens l.
Proof.
  unfold orderTokens. rewrite filter_cons.
  destruct (isOrderToken c); reflexivity.
Qed.

(** The cases of one turn of the scanning loop, in the order of its tests. *)
Ltac scan_cases token :=
  cbn [scanFormat];
  destruct (Ascii.eqb_spec token dotwToken) as [->|?];
  [ idtac
  | destruct (isOrderToken token) eqn:?;
    [ idtac
    | destruct (Ascii.eqb token hourToken || Ascii.eqb token minuteToken
                || Ascii.eqb token secondToken) eqn:?;
      [ idtac
      | destruct (Ascii.eqb_spec token _12HoursToken) as [->|?];
        [ idtac
        | destruct (Ascii.eqb_spec token timezoneOffsetToken) as [->|?] ] ] ] ].

(** The local order string of the scan collects the order tokens. *)
Lemma scanFormat_order (l : list ascii) :
  forall this order, (scanFormat l this order).2 = order ++ orderTokens l.
Proof.
  induction l as [|token l IH]; intros this order.
  - cbn. rewrite app_nil_r. reflexivity.
  - rewrite orderTokens_cons.
    scan_cases token; cbv zeta; rewrite IH;
      try match goal with H : isOrderToken _ = _ |- _ => rewrite H end;
      try reflexivity.
    rewrite <- app_assoc. reflexivity.
Qed.

Lemma DateTimeFormat_from_string_unfold (format : list ascii) :
  let deduplicated := firstOccurrences (orderTokens (normalizeFormat format)) in
  DateTimeFormat_from_string format
  = if (length deduplicated =? 3)%nat
    then Ok (set_order deduplicated (scanFormat (normalizeFormat format) defaultMembers []).1)
    else Throw (runtime_error "Failed to generate order from string.").
Proof.
  intros deduplicated. unfold DateTimeFormat_from_string.
  pose proof (scanFormat_order (normalizeFormat format) defaultMembers []) as Hord.
  destruct (scanFormat (normalizeFormat format) defaultMembers []) as [this ord].
  cbn [snd fst app] in *. subst ord.
  rewrite removeDuplicates_firstOccurrences. fold deduplicated.
  destruct (length deduplicated =? 3)%nat; reflexivity.
Qed.

(** C7: parsing a format fails, with the runtime error of the constructor,
    exactly when the order-string collected from the d/m/y/a tokens, with
    duplicates removed and first occurrences kept in order, does not have 3
    characters; when it succeeds, the order of the result is that string of
    3 distinct characters. *)
Theorem DateTimeFormat_from_string_order (format : list ascii) :
  let deduplicated := firstOccurrences (orderTokens (normalizeFormat format)) in
  NoDup deduplicated /\
  (DateTimeFormat_from_string format
     = Throw (runtime_error "Failed to generate order from string.")
   <-> length deduplicated <> 3%nat) /\
  ((exists f, DateTimeFormat_from_string format = Ok f) <-> length deduplicated = 3%nat) /\
  (forall f, DateTimeFormat_from_string format = Ok f -> order f = deduplicated).
Proof.
  intros deduplicated. split; [apply firstOccurrences_NoDup|].
  rewrite DateTimeFormat_from_string_unfold. fold deduplicated.
  destruct (Nat.eqb_spec (length deduplicated) 3) as [Hlen|Hlen].
  - repeat split; try congruence; eauto.
    intros f [= <-]. reflexivity.
  - repeat split; try congruence; try discriminate.
    intros [f Hf]. discriminate.
Qed.

Example DateTimeFormat_from_string_examples :
  DateTimeFormat_from_string (text "DD/MM")
    = Throw (runtime_error "Failed to generate order from string.") /\
  DateTimeFormat_from_string (text "d m y a")
    = Throw (runtime_error "Failed to generate order from string.") /\
  (order <$> DateTimeFormat_from_string (text "yy, dd, yy, aa")) = Ok (text "yda").
Proof. repeat split; vm_compute; reflexivity. Qed.

(** [orderTokenPositions] lists exactly the indices that hold an order
    token, in ascending order. *)
Lemma orderTokenPositions_elem (l : list ascii) :
  forall p : nat,
    p ∈ orderTokenPositions l <-> exists c, l !! p = Some c /\ isOrderToken c = true.
Proof.
  induction l as [|c l IH]; intros p.
  - cbn. split; [intros H; inversion H | intros (c & H & _); discriminate].
  - cbn [orderTokenPositions]. rewrite elem_of_app, list_elem_of_fmap.
    split.
    + intros [H|(q & -> & Hq)].
      * destruct (isOrderToken c) eqn:Hc; [|inversion H].
        apply list_elem_of_singleton in H. subst p. exists c. auto.
      * apply IH in Hq. exact Hq.
    + intros (c' & Hp & Hc'). destruct p as [|q].
      * injection Hp as ->. rewrite Hc'. left. apply list_elem_of_singleton. reflexivity.
      * right. exists q. split; [reflexivity|]. apply IH. exists c'. auto.
Qed.

Lemma orderTokenPositions_sorted (l : list ascii) :
  StronglySorted lt (orderTokenPositions l).
Proof.
  induction l as [|c l IH]; [constructor|].
  cbn [orderTokenPositions].
  assert (Htail : StronglySorted lt (map S (orderTokenPositions l))).
  { clear -IH. induction IH as [|x xs Hs IHs Hall]; cbn; constructor; [exact IHs|].
    rewrite Forall_fmap. eapply Forall_impl; [exact Hall|]. cbn. intros; lia. }
  destruct (isOrderToken c); [|exact Htail].
  cbn [app]. constructor; [exact Htail|].
  rewrite Forall_fmap. apply Forall_true. cbn. intros; lia.
Qed.

Lemma followers_shift (c : ascii) (l : list ascii) (n : nat) :
  omap (fun p : nat => (c :: l) !! S p) (take n (map S (orderTokenPositions l)))
  = omap (fun p : nat => l !! S p) (take n (orderTokenPositions l)).
Proof.
  change (map S (orderTokenPositions l)) with (S <$> orderTokenPositions l).
  rewrite <- fmap_take. generalize (take n (orderTokenPositions l)). intros ps.
  induction ps as [|p ps IH]; [reflexivity|].
  rewrite fmap_cons. cbn [omap list_omap]. rewrite IH. reflexivity.
Qed.

Lemma followersOfFirst_skip (n : nat) (c : ascii) (l : list ascii) :
  isOrderToken c = false -> followersOfFirst n (c :: l) = followersOfFirst n l.
Proof.
  intros Hc. unfold followersOfFirst. cbn [orderTokenPositions]. rewrite Hc.
  cbn [app]. apply followers_shift.
Qed.

Lemma followersOfFirst_token (n : nat) (c : ascii) (l : list ascii) :
  isOrderToken c = true ->
  followersOfFirst (S n) (c :: l)
  = match head l with Some c' => [c'] | None => [] end ++ followersOfFirst n l.
Proof.
  intros Hc. unfold followersOfFirst. cbn [orderTokenPositions]. rewrite Hc.
  cbn [app take]. cbn [omap list_omap]. rewrite followers_shift.
  destruct l as [|c' l']; reflexivity.
Qed.

Lemma followersOfFirst_zero (l : list ascii) : followersOfFirst 0 l = [].
Proof. reflexivity. Qed.

Lemma default_last_cons (d c : ascii) (l : list ascii) :
  default d (last (c :: l)) = default c (last l).
Proof.
  destruct l as [|x l]; [reflexivity|]. cbn [last].
  destruct (last (x :: l)) eqn:E; [reflexivity|].
  apply last_None in E. discriminate.
Qed.

(** The delimiter after a scan: the last of the characters that follow the
    order tokens pushed while the order string is shorter than 3. *)
Lemma scanFormat_delimiter (l : list ascii) :
  forall this order,
    delimiter (scanFormat l this order).1
    = default (delimiter this) (last (followersOfFirst (2 - length order) l)).
Proof.
  induction l as [|token l IH]; intros this order.
  { unfold followersOfFirst. cbn [orderTokenPositions]. rewrite take_nil. reflexivity. }
  scan_cases token; cbv zeta; rewrite IH.
  - rewrite followersOfFirst_skip by reflexivity.
    destruct (next_is (head l) dotwToken); reflexivity.
  - rewrite length_app. cbn [length].
    destruct (Nat.ltb_spec (length order + 1) 3) as [Hlt|Hge].
    + replace (2 - length order)%nat with (S (2 - (length order + 1))) by lia.
      rewrite followersOfFirst_token by assumption.
      destruct (head l) as [c'|]; cbn [app].
      * rewrite default_last_cons.
        destruct (next_is _ _ && negb _), (Ascii.eqb token alphabeticalMonthToken); reflexivity.
      * destruct (next_is _ _ && negb _), (Ascii.eqb token alphabeticalMonthToken); reflexivity.
    + replace (2 - (length order + 1))%nat with 0%nat by lia.
      replace (2 - length order)%nat with 0%nat by lia.
      rewrite !followersOfFirst_zero.
      destruct (head l), (next_is _ _ && negb _), (Ascii.eqb token alphabeticalMonthToken);
        reflexivity.
  - rewrite followersOfFirst_skip by assumption.
    destruct (next_is _ _ && negb _); reflexivity.
  - rewrite followersOfFirst_skip by reflexivity. reflexivity.
  - rewrite followersOfFirst_skip by reflexivity. reflexivity.
  - rewrite followersOfFirst_skip by assumption. reflexivity.
Qed.

Lemma orderTokenPositions_length (l : list ascii) :
  length (orderTokenPositions l) = length (orderTokens l).
Proof.
  induction l as [|c l IH]; [reflexivity|].
  rewrite orderTokens_cons. cbn [orderTokenPositions].
  rewrite length_app, length_map, IH. destruct (isOrderToken c); reflexivity.
Qed.

Lemma firstOccurrences_length (l : list ascii) :
  (length (firstOccurrences l) <= length l)%nat.
Proof.
  induction l as [|c l IH]; [reflexivity|].
  cbn [firstOccurrences length].
  pose proof (length_filter (fun x => x <> c) (firstOccurrences l)). lia.
Qed.

(** A format that parses has at least three order tokens, so the second of
    them has a character after it. *)
Lemma parsed_format_positions (format : list ascii) (f : DateTimeFormat) :
  DateTimeFormat_from_string format = Ok f ->
  exists (p1 p2 : nat) (c : ascii) (ps : list nat),
    orderTokenPositions (normalizeFormat format) = p1 :: p2 :: ps /\
    normalizeFormat format !! S p2 = Some c.
Proof.
  intros Hf.
  assert (Hlen : length (firstOccurrences (orderTokens (normalizeFormat format))) = 3%nat).
  { rewrite DateTimeFormat_from_string_unfold in Hf. cbv zeta in Hf.
    destruct (Nat.eqb_spec (length (firstOccurrences (orderTokens (normalizeFormat format)))) 3);
      [assumption | discriminate]. }
  pose proof (firstOccurrences_length (orderTokens (normalizeFormat format))) as Hle.
  rewrite <- orderTokenPositions_length in Hle.
  pose proof (orderTokenPositions_sorted (normalizeFormat format)) as Hs.
  pose proof (orderTokenPositions_elem (normalizeFormat format)) as He.
  destruct (orderTokenPositions (normalizeFormat format)) as [|p1 [|p2 [|p3 ps]]];
    cbn [length] in Hle; try lia.
  assert (Hp3 : p3 ∈ p1 :: p2 :: p3 :: ps) by (do 2 right; left).
  apply He in Hp3 as (c3 & Hp3 & _). apply lookup_lt_Some in Hp3.
  inversion Hs as [|? ? Hs1 H1]; subst. inversion Hs1 as [|? ? Hs2 H2]; subst.
  inversion H2 as [|? ? Hlt _]; subst.
  destruct (lookup_lt_is_Some_2 (normalizeFormat format) (S p2) ltac:(lia)) as [c Hc].
  exists p1, p2, c, (p3 :: ps). auto.
Qed.

Lemma parsed_format_delimiter_scanned (format : list ascii) (f : DateTimeFormat) :
  DateTimeFormat_from_string format = Ok f ->
  delimiter f = delimiter (scanFormat (normalizeFormat format) defaultMembers []).1.
Proof.
  rewrite DateTimeFormat_from_string_unfold. cbv zeta.
  destruct (_ =? _)%nat; [|discriminate]. intros [= <-]. reflexivity.
Qed.

Lemma scanned_delimiter_cases (newFormat : list ascii) :
  let scanned := (scanFormat newFormat defaultMembers []).1 in
  match orderTokenPositions newFormat with
  | p1 :: p2 :: _ =>
      delimiter scanned
      = default (default "/"%char (newFormat !! S p1)) (newFormat !! S p2)
  | [p1] => delimiter scanned = default "/"%char (newFormat !! S p1)
  | [] => delimiter scanned = "/"%char
  end.
Proof.
  cbv zeta. rewrite scanFormat_delimiter. unfold followersOfFirst.
  change (2 - length [])%nat with 2%nat. change (delimiter defaultMembers) with "/"%char.
  destruct (orderTokenPositions newFormat) as [|p1 [|p2 ps]]; cbn [take omap list_omap].
  - reflexivity.
  - destruct (newFormat !! S p1); reflexivity.
  - destruct (newFormat !! S p1), (newFormat !! S p2); reflexivity.
Qed.

(** X24: on a format that parses, the delimiter is the character right
    after the second order token of the format (lower case, spaces removed),
    be it a separator or a letter. *)
Lemma parsed_format_delimiter (format : list ascii) (f : DateTimeFormat) :
  DateTimeFormat_from_string format = Ok f ->
  exists (p1 p2 : nat) (ps : list nat),
    orderTokenPositions (normalizeFormat format) = p1 :: p2 :: ps /\
    normalizeFormat format !! S p2 = Some (delimiter f).
Proof.
  intros Hf.
  destruct (parsed_format_positions format f Hf) as (p1 & p2 & c & ps & Hps & Hc).
  pose proof (scanned_delimiter_cases (normalizeFormat format)) as Hcase.
  cbv zeta in Hcase. rewrite Hps, Hc in Hcase. cbn [default] in Hcase.
  exists p1, p2, ps. split; [exact Hps|].
  rewrite (parsed_format_delimiter_scanned format f Hf), Hcase. exact Hc.
Qed.

(** C8: the scan runs on the format in lower case with spaces removed; the
    character right after each of the first two order-token occurrences is
    taken as delimiter, the later one winning, and the delimiter stays '/'
    when neither has a character after it.  "mm-dd-yyyy" parses to the
    order m, d, y with delimiter '-' and zero-padding on. *)
Theorem scanFormat_delimiter_capture (format : list ascii) :
  let newFormat := normalizeFormat format in
  let scanned := (scanFormat newFormat defaultMembers []).1 in
  delimiter scanned = default "/"%char (last (followersOfFirst 2 newFormat)) /\
  match orderTokenPositions newFormat with
  | p1 :: p2 :: _ =>
      delimiter scanned
      = default (default "/"%char (newFormat !! S p1)) (newFormat !! S p2)
  | [p1] => delimiter scanned = default "/"%char (newFormat !! S p1)
  | [] => delimiter scanned = "/"%char
  end /\
  (forall f, DateTimeFormat_from_string format = Ok f -> delimiter f = delimiter scanned) /\
  DateTimeFormat_from_string (text "mm-dd-yyyy")
  = Ok (mkFormat "-" false false false true false false false (text "mdy")).
Proof.
  intros newFormat scanned. split; [|split; [|split]].
  - subst scanned. rewrite scanFormat_delimiter. reflexivity.
  - apply scanned_delimiter_cases.
  - intros f Hf. apply parsed_format_delimiter_scanned. exact Hf.
  - vm_compute. reflexivity.
Qed.

(** ** The flags set by the scan *)

Lemma next_is_true (next : option ascii) (token : ascii) :
  next_is next token = true <-> next = Some token.
Proof.
  destruct next as [c|]; cbn [next_is].
  - destruct (Ascii.eqb_spec c token); split; congruence.
  - split; discriminate.
Qed.

Lemma doubledAt_nil (token : ascii) : ~ doubledAt token [].
Proof. intros (i & H & _). discriminate. Qed.

Lemma doubledAt_cons (token c : ascii) (l : list ascii) :
  doubledAt token (c :: l) <-> (c = token /\ head l = Some token) \/ doubledAt token l.
Proof.
  unfold doubledAt. split.
  - intros ([|i] & H0 & H1).
    + left. cbn in H0, H1. injection H0 as ->. split; [reflexivity|].
      destruct l; [discriminate|exact H1].
    + right. exists i. auto.
  - intros [[-> Hh]|(i & H0 & H1)].
    + exists 0%nat. split; [reflexivity|]. destruct l; [discriminate|exact Hh].
    + exists (S i). auto.
Qed.

Lemma doubledAt_cons_ne (token c : ascii) (l : list ascii) :
  c <> token -> (doubledAt token (c :: l) <-> doubledAt token l).
Proof. intros Hne. rewrite doubledAt_cons. tauto. Qed.

Lemma isOrderToken_dotw_ne (token : ascii) : isOrderToken token = true -> token <> dotwToken.
Proof. intros H ->. discriminate. Qed.

Ltac flags_simpl :=
  cbn [delimiter showDotw showTime showUTCoffset fillZeros alphabeticalMonth _12Hours
       fullNames order set_delimiter set_showDotw set_showTime set_showUTCoffset
       set_fillZeros set_alphabeticalMonth set_12Hours set_fullNames set_order] in *.

Ltac token_facts :=
  assert (alphabeticalMonthToken <> dotwToken) by discriminate;
  assert (alphabeticalMonthToken <> _12HoursToken) by discriminate;
  assert (alphabeticalMonthToken <> timezoneOffsetToken) by discriminate;
  assert (dotwToken <> _12HoursToken) by discriminate;
  assert (dotwToken <> timezoneOffsetToken) by discriminate.

(** [fullNames] is set by a doubled [w] and by nothing else. *)
Lemma scanFormat_fullNames (l : list ascii) :
  forall this order,
    fullNames (scanFormat l this order).1 = true
    <-> fullNames this = true \/ doubledAt dotwToken l.
Proof.
  induction l as [|token l IH]; intros this order.
  - cbn. pose proof (doubledAt_nil dotwToken). tauto.
  - scan_cases token; cbv zeta; rewrite IH.
    + rewrite doubledAt_cons.
      destruct (next_is (head l) dotwToken) eqn:Hn; cbn [fullNames set_fullNames set_showDotw].
      * apply next_is_true in Hn. tauto.
      * assert (head l <> Some dotwToken)
          by (intros Hh; apply next_is_true in Hh; congruence).
        tauto.
    + rewrite (doubledAt_cons_ne dotwToken token) by assumption.
      destruct (head l), (next_is _ _ && negb _), (Ascii.eqb token alphabeticalMonthToken),
        (length (order ++ [token]) <? 3)%nat; reflexivity.
    + rewrite (doubledAt_cons_ne dotwToken token) by assumption.
      destruct (next_is _ _ && negb _); reflexivity.
    + rewrite doubledAt_cons_ne by discriminate. reflexivity.
    + rewrite doubledAt_cons_ne by discriminate. reflexivity.
    + rewrite (doubledAt_cons_ne dotwToken token) by assumption. reflexivity.
Qed.

(** [showDotw] is set by any [w]. *)
Lemma scanFormat_showDotw (l : list ascii) :
  forall this order,
    showDotw (scanFormat l this order).1 = true
    <-> showDotw this = true \/ dotwToken ∈ l.
Proof.
  induction l as [|token l IH]; intros this order.
  - cbn. rewrite elem_of_nil. tauto.
  - token_facts. scan_cases token; cbv zeta; rewrite IH, elem_of_cons.
    + destruct (next_is (head l) dotwToken); flags_simpl; tauto.
    + destruct (head l), (next_is _ _ && negb _), (Ascii.eqb token alphabeticalMonthToken),
        (length (order ++ [token]) <? 3)%nat; flags_simpl; intuition congruence.
    + destruct (next_is _ _ && negb _); flags_simpl; intuition congruence.
    + flags_simpl. intuition congruence.
    + flags_simpl. intuition congruence.
    + intuition congruence.
Qed.

(** [alphabeticalMonth] is set by any [a]. *)
Lemma scanFormat_alphabeticalMonth (l : list ascii) :
  forall this order,
    alphabeticalMonth (scanFormat l this order).1 = true
    <-> alphabeticalMonth this = true \/ alphabeticalMonthToken ∈ l.
Proof.
  induction l as [|token l IH]; intros this order.
  - cbn. rewrite elem_of_nil. tauto.
  - token_facts. scan_cases token; cbv zeta; rewrite IH, elem_of_cons.
    + destruct (next_is (head l) dotwToken); flags_simpl; intuition congruence.
    + destruct (Ascii.eqb_spec token alphabeticalMonthToken) as [->|Hne].
      * destruct (head l), (next_is _ _ && negb _),
          (length (order ++ [alphabeticalMonthToken]) <? 3)%nat; flags_simpl; tauto.
      * destruct (head l), (next_is _ _ && negb _),
          (length (order ++ [token]) <? 3)%nat; flags_simpl; intuition congruence.
    + assert (token <> alphabeticalMonthToken) by (intros ->; discriminate).
      destruct (next_is _ _ && negb _); flags_simpl; intuition congruence.
    + flags_simpl. intuition congruence.
    + flags_simpl. intuition congruence.
    + assert (token <> alphabeticalMonthToken) by (intros ->; discriminate).
      intuition congruence.
Qed.

(** Once set, [fillZeros] stays set. *)
Lemma scanFormat_fillZeros_keep (l : list ascii) :
  forall this order,
    fillZeros this = true -> fillZeros (scanFormat l this order).1 = true.
Proof.
  induction l as [|token l IH]; intros this order Hz; [exact Hz|].
  scan_cases token; cbv zeta; apply IH.
  - destruct (next_is (head l) dotwToken); exact Hz.
  - destruct (head l), (next_is _ _ && negb _), (Ascii.eqb token alphabeticalMonthToken),
      (length (order ++ [token]) <? 3)%nat; try exact Hz; reflexivity.
  - destruct (next_is _ _ && negb _); [reflexivity | exact Hz].
  - exact Hz.
  - exact Hz.
  - exact Hz.
Qed.

(** A doubled order token sets [fillZeros]. *)
Lemma scanFormat_fillZeros_doubled (token : ascii) (l : list ascii) :
  isOrderToken token = true ->
  forall this order,
    doubledAt token l -> fillZeros (scanFormat l this order).1 = true.
Proof.
  intros Htok. induction l as [|c l IH]; intros this order Hd.
  - destruct (doubledAt_nil _ Hd).
  - apply doubledAt_cons in Hd as [[-> Hh]|Hd].
    + cbn [scanFormat].
      destruct (Ascii.eqb_spec token dotwToken) as [->|_]; [discriminate|].
      rewrite Htok. cbv zeta. apply scanFormat_fillZeros_keep.
      apply next_is_true in Hh. rewrite Hh.
      destruct (fillZeros this) eqn:Hz; cbn [andb negb];
        destruct (head l), (Ascii.eqb token alphabeticalMonthToken),
          (length (order ++ [token]) <? 3)%nat; cbn; try reflexivity; exact Hz.
    + scan_cases c; cbv zeta; apply IH; exact Hd.
Qed.

(** ** Construction and rendering *)

Lemma DateTime_from_string_inv (_unix : list ascii) (offset : float) (this : DateTime) :
  DateTime_from_string _unix offset = Ok this ->
  exists n, stoll _unix = Ok n /\ parseUnix n offset = Ok (fields this) /\
            unix_str this = _unix /\ timezoneOffset this = offset.
Proof.
  unfold DateTime_from_string.
  destruct (stoll _unix) as [n| | |]; cbn [mbind outcome_bind catch_all]; try discriminate.
  destruct (parseUnix n offset) as [f| | |] eqn:Hf; cbn [mbind outcome_bind catch_all];
    try discriminate.
  intros [= <-]. exists n. auto.
Qed.

Lemma DateTime_from_string_months (_unix : list ascii) (offset : float) (this : DateTime) :
  DateTime_from_string _unix offset = Ok this -> 0 <= months (fields this) <= 11.
Proof.
  intros H. apply DateTime_from_string_inv in H as (n & _ & Hp & _).
  destruct (parseUnix_decompose n offset)
    as (dy & y & d & m & monthDays & _ & _ & _ & Hm & _ & _ & _ & Hp').
  rewrite Hp in Hp'. injection Hp' as ->. exact Hm.
Qed.

Lemma monthsStrMap_at (month : Z) :
  0 <= month <= 11 ->
  exists name, map_at monthsStrMap month = Ok name /\
               (take shortStrLength name = name <-> month = 4).
Proof.
  intros Hm.
  assert (Hcases : month = 0 \/ month = 1 \/ month = 2 \/ month = 3 \/ month = 4 \/
                   month = 5 \/ month = 6 \/ month = 7 \/ month = 8 \/ month = 9 \/
                   month = 10 \/ month = 11) by lia.
  clear Hm.
  repeat (destruct Hcases as [->|Hcases]); try subst month.
  all: eexists; split; [vm_compute; reflexivity|].
  all: split; [intros H; try discriminate H; reflexivity | intros H; try discriminate H; reflexivity].
Qed.

Lemma renderOrderField_alphabetical (this : DateTime) (format : DateTimeFormat) :
  renderOrderField this format alphabeticalMonthToken
  = name ← map_at monthsStrMap (months (fields this));
    Ok (if fullNames format then name else take shortStrLength name).
Proof. reflexivity. Qed.

Lemma parsed_format_flags (format : list ascii) (f : DateTimeFormat) :
  DateTimeFormat_from_string format = Ok f ->
  let scanned := (scanFormat (normalizeFormat format) defaultMembers []).1 in
  f = set_order (firstOccurrences (orderTokens (normalizeFormat format))) scanned.
Proof.
  rewrite DateTimeFormat_from_string_unfold. cbv zeta.
  destruct (_ =? _)%nat; [|discriminate]. intros [= <-]. reflexivity.
Qed.

(** C10, as the code has it: at the alphabetical-month position the
    renderer emits the full month name when [fullNames] is set and its first
    three characters otherwise (the same text for May only); a parsed format
    has [alphabeticalMonth] set exactly when its order holds the [a] token,
    and [fullNames] set exactly when the scanned format holds a doubled [w],
    which also sets [showDotw]; a doubled [a] sets [fillZeros]. *)
Theorem month_name_length_follows_fullNames
    (_unix : list ascii) (offset : float) (this : DateTime) (shown : DateTimeFormat)
    (format : list ascii) (f : DateTimeFormat) :
  DateTime_from_string _unix offset = Ok this ->
  DateTimeFormat_from_string format = Ok f ->
  (exists name,
      map_at monthsStrMap (months (fields this)) = Ok name /\
      renderOrderField this shown alphabeticalMonthToken
      = Ok (if fullNames shown then name else take shortStrLength name) /\
      (take shortStrLength name = name <-> months (fields this) = 4)) /\
  (alphabeticalMonth f = true <-> alphabeticalMonthToken ∈ order f) /\
  (fullNames f = true <-> doubledAt dotwToken (normalizeFormat format)) /\
  (fullNames f = true -> showDotw f = true) /\
  (doubledAt alphabeticalMonthToken (normalizeFormat format) -> fillZeros f = true).
Proof.
  intros Hthis Hf.
  apply DateTime_from_string_months in Hthis.
  apply parsed_format_flags in Hf. cbv zeta in Hf. subst f. flags_simpl.
  pose proof (scanFormat_fullNames (normalizeFormat format) defaultMembers []) as Hfull.
  pose proof (scanFormat_showDotw (normalizeFormat format) defaultMembers []) as Hshow.
  pose proof (scanFormat_alphabeticalMonth (normalizeFormat format) defaultMembers []) as Halpha.
  flags_simpl. split; [|split; [|split; [|split]]].
  - destruct (monthsStrMap_at _ Hthis) as (name & Hname & Hshort).
    exists name. rewrite renderOrderField_alphabetical, Hname. auto.
  - rewrite Halpha, firstOccurrences_elem. unfold orderTokens.
    rewrite list_elem_of_filter. cbn. intuition discriminate.
  - rewrite Hfull. intuition discriminate.
  - rewrite Hfull, Hshow. intros [Hd|(i & Hi & _)]; [discriminate|].
    right. eapply list_elem_of_lookup_2. exact Hi.
  - apply scanFormat_fillZeros_doubled. reflexivity.
Qed.

Lemma month_name_length_follows_fullNames_witness :
  exists this f,
    DateTime_from_string (text "10368000") (-5.5)%float = Ok this /\
    DateTimeFormat_from_string (text "WW A-D-Y") = Ok f /\
    (exists name,
        map_at monthsStrMap (months (fields this)) = Ok name /\
        renderOrderField this f alphabeticalMonthToken
        = Ok (if fullNames f then name else take shortStrLength name) /\
        (take shortStrLength name = name <-> months (fields this) = 4)) /\
    (alphabeticalMonth f = true <-> alphabeticalMonthToken ∈ order f) /\
    (fullNames f = true <-> doubledAt dotwToken (normalizeFormat (text "WW A-D-Y"))) /\
    (fullNames f = true -> showDotw f = true) /\
    (doubledAt alphabeticalMonthToken (normalizeFormat (text "WW A-D-Y"))
     -> fillZeros f = true).
Proof.
  eexists _, _. split; [vm_compute; reflexivity|]. split; [vm_compute; reflexivity|].
  apply (month_name_length_follows_fullNames (text "10368000") (-5.5)%float _ _
           (text "WW A-D-Y") _); vm_compute; reflexivity.
Defined.

(** C10 as worded fails on the code.  On 1970-05-01 the format "a-d-y",
    which has [alphabeticalMonth] set and [fullNames] not set, renders the
    full month name "May"; and a format built from its members with
    [alphabeticalMonth] and [fullNames] set but the order "mdy" renders no
    month name at all. *)
Lemma full_month_name_without_fullNames :
  exists this f name,
    DateTime_from_string (text "10368000") 0%float = Ok this /\
    DateTimeFormat_from_string (text "a-d-y") = Ok f /\
    alphabeticalMonth f = true /\ fullNames f = false /\
    map_at monthsStrMap (months (fields this)) = Ok name /\
    name = text "May" /\
    renderOrderField this f alphabeticalMonthToken = Ok name /\
    toString this f = Ok (text "May-1-1970 ") /\
    let g := DateTimeFormat_from_members "/" false false false false true false true
               (text "mdy") in
    alphabeticalMonth g = true /\ fullNames g = true /\
    toString this g = Ok (text "5/1/1970 ").
Proof.
  eexists _, _, _.
  split; [vm_compute; reflexivity|]. split; [vm_compute; reflexivity|].
  repeat split; vm_compute; reflexivity.
Qed.

Example toString_examples :
  (this ← DateTime_from_string (text "0") 0%float;
   toString_from_string this (text "mm-dd-yyyy")) = Ok (text "01-01-1970 ") /\
  (this ← DateTime_from_string (text "10368000") (-5.5)%float;
   toString_from_string this (text "WW A-D-Y H:I:S _ O"))
  = Ok (text "Thursday, April-30-1970 6:30:0 PM -5.500000 UTC") /\
  (this ← DateTime_from_string (text "not a number") 0%float;
   toString_from_string this defaultFormat)
  = Throw (invalid_argument "Your unix timestamp is invalid.").
Proof. repeat split; vm_compute; reflexivity. Qed.

(** C2, checked on the code: epoch "0" at offset 0 in the default format
    renders the offset through [std::to_string(double)], which prints six
    decimals; the result is not the string of the class comment. *)
Theorem default_format_epoch_zero :
  exists this,
    DateTime_from_string (text "0") 0%float = Ok this /\
    toString_from_string this defaultFormat
    = Ok (text "Thu, 01/01/1970 00:00:00 +00.000000 UTC") /\
    toString_from_string this defaultFormat
    <> Ok (text "Thu, 01/01/1970 00:00:00 +00 UTC").
Proof.
  eexists. split; [vm_compute; reflexivity|].
  split; [vm_compute; reflexivity|].
  vm_compute. discriminate.
Qed.

(** ** Decimal text and [stoll] *)

Lemma digit_char_facts (d : Z) :
  0 <= d <= 9 ->
  isdigit (digit_char d) = true /\ digit_value (digit_char d) = d /\
  isspace (digit_char d) = false /\
  Ascii.eqb (digit_char d) "-" = false /\ Ascii.eqb (digit_char d) "+" = false.
Proof.
  intros Hd.
  assert (Hcases : d = 0 \/ d = 1 \/ d = 2 \/ d = 3 \/ d = 4 \/ d = 5 \/ d = 6 \/
                   d = 7 \/ d = 8 \/ d = 9) by lia.
  clear Hd.
  repeat (destruct Hcases as [->|Hcases]); try subst d; repeat split; reflexivity.
Qed.

Lemma to_digits_head (fuel : nat) :
  forall n acc, exists d rest,
    0 <= d <= 9 /\ to_digits (S fuel) n acc = digit_char d :: rest.
Proof.
  induction fuel as [|fuel IH]; intros n acc.
  - cbn [to_digits]. exists (n mod 10).
    pose proof (Z.mod_pos_bound n 10 eq_refl).
    destruct (n <? 10); eexists; (split; [lia | reflexivity]).
  - change (to_digits (S (S fuel)) n acc)
      with (let acc' := digit_char (n mod 10) :: acc in
            if n <? 10 then acc' else to_digits (S fuel) (n / 10) acc').
    cbv zeta. destruct (n <? 10).
    + pose proof (Z.mod_pos_bound n 10 eq_refl).
      exists (n mod 10). eexists. split; [lia | reflexivity].
    + apply IH.
Qed.

Lemma parse_digits_to_digits (fuel : nat) :
  forall n rest,
    0 <= n < 2 ^ Z.of_nat fuel ->
    parse_digits 0 (to_digits fuel n rest) = parse_digits n rest.
Proof.
  induction fuel as [|fuel IH]; intros n rest Hn.
  - cbn in Hn. assert (n = 0) by lia. subst n. reflexivity.
  - cbn [to_digits].
    pose proof (Z.mod_pos_bound n 10 eq_refl) as Hmod.
    destruct (digit_char_facts (n mod 10) ltac:(lia)) as (Hdig & Hval & _).
    destruct (Z.ltb_spec n 10) as [Hlt|Hge].
    + cbn [parse_digits]. rewrite Hdig, Hval.
      rewrite Z.mod_small by lia. reflexivity.
    + rewrite IH.
      * cbn [parse_digits]. rewrite Hdig, Hval. f_equal.
        pose proof (Z.div_mod n 10 ltac:(lia)). lia.
      * rewrite Nat2Z.inj_succ, Z.pow_succ_r in Hn by lia.
        split; [apply Z.div_pos; lia|].
        apply Z.div_lt_upper_bound; lia.
Qed.

Lemma digitsFuel_enough (n : Z) : 0 <= n -> 0 <= n < 2 ^ Z.of_nat (digitsFuel n).
Proof.
  intros Hn. split; [exact Hn|]. unfold digitsFuel.
  rewrite Nat2Z.inj_succ, Z2Nat.id by apply Z.log2_nonneg.
  destruct (Z.eq_dec n 0) as [->|Hne]; [reflexivity|].
  apply Z.log2_spec. lia.
Qed.

(** [std::stoll(std::to_string(z))] is [z] for every [long long]. *)
Lemma stoll_to_string (z : Z) : is_ll z -> stoll (to_string z) = Ok z.
Proof.
  unfold is_ll. intros Hz. unfold to_string.
  destruct (Z.ltb_spec z 0) as [Hneg|Hnn].
  - unfold stoll. cbn [skip_spaces]. change (isspace "-") with false. cbv iota.
    change (Ascii.eqb "-" "-") with true. cbv iota.
    destruct (to_digits_head (Z.to_nat (Z.log2 (- z))) (- z) []) as (d & rest & Hd & Hhead).
    fold (digitsFuel (- z)) in Hhead.
    destruct (digit_char_facts d Hd) as (Hdig & _).
    assert (Hstart : starts_with_digit (to_digits (digitsFuel (- z)) (- z) []) = true)
      by (rewrite Hhead; exact Hdig).
    rewrite Hstart. cbn [negb].
    rewrite parse_digits_to_digits by (apply digitsFuel_enough; lia).
    cbn [parse_digits]. rewrite Z.opp_involutive.
    destruct (Z.leb_spec LLONG_MIN z); [|lia].
    destruct (Z.leb_spec z LLONG_MAX); [|lia]. reflexivity.
  - destruct (to_digits_head (Z.to_nat (Z.log2 z)) z []) as (d & rest & Hd & Hhead).
    fold (digitsFuel z) in Hhead.
    destruct (digit_char_facts d Hd) as (Hdig & _ & Hsp & Hminus & Hplus).
    pose proof (parse_digits_to_digits (digitsFuel z) z [] (digitsFuel_enough z Hnn)) as Hparse.
    unfold stoll. rewrite Hhead in *. cbn [skip_spaces]. rewrite Hsp, Hminus, Hplus.
    cbn [starts_with_digit]. rewrite Hdig. cbn [negb]. rewrite Hparse.
    cbn [parse_digits].
    destruct (Z.leb_spec LLONG_MIN z); [|lia].
    destruct (Z.leb_spec z LLONG_MAX); [|lia]. reflexivity.
Qed.

Lemma stoll_range (str : list ascii) (n : Z) : stoll str = Ok n -> is_ll n.
Proof.
  unfold stoll, is_ll.
  destruct (match skip_spaces str with
            | [] => (false, skip_spaces str)
            | c :: rest =>
                if Ascii.eqb c "-" then (true, rest)
                else if Ascii.eqb c "+" then (false, rest) else (false, skip_spaces str)
            end) as [negative digits].
  destruct (negb (starts_with_digit digits)); [discriminate|].
  destruct (Z.leb_spec LLONG_MIN (if negative then - parse_digits 0 digits
                                  else parse_digits 0 digits)); [|discriminate].
  destruct (Z.leb_spec (if negative then - parse_digits 0 digits
                        else parse_digits 0 digits) LLONG_MAX); [|discriminate].
  cbn [andb]. intros [= <-]. lia.
Qed.

Lemma DateTime_from_to_string (z : Z) :
  is_ll z ->
  exists f, parseUnix z 0%float = Ok f /\
            DateTime_from_string (to_string z) 0%float = Ok (mkDateTime (to_string z) f 0%float).
Proof.
  intros Hz.
  destruct (parseUnix_decompose z 0%float)
    as (dy & y & d & m & monthDays & _ & _ & _ & _ & _ & _ & _ & Hp).
  eexists. split; [exact Hp|].
  unfold DateTime_from_string. rewrite (stoll_to_string z Hz).
  cbn [mbind outcome_bind]. rewrite Hp. reflexivity.
Qed.

Lemma quot_is_ll (a b : Z) :
  is_ll a -> is_ll b -> b <> 0 -> ~ (a = LLONG_MIN /\ b = -1) -> is_ll (Z.quot a b).
Proof.
  unfold is_ll, LLONG_MIN, LLONG_MAX.
  change (2 ^ 63) with 9223372036854775808.
  intros Ha Hb Hb0 Hov.
  Z.to_euclidean_division_equations. nia.
Qed.

(** ** Division *)

(** C9, as the code has it: the operator divides the two epoch integers
    without a guard.  With a divisor other than zero (and a quotient that
    fits [long long]) it returns the DateTime constructed from the text of
    the truncated quotient, at UTC offset zero; with a zero divisor the
    division has no defined behaviour; in no case is an exception thrown. *)
Theorem operator_div_unguarded (this other : DateTime) (a b : Z) :
  stoll (unix_str this) = Ok a ->
  stoll (unix_str other) = Ok b ->
  (b = 0 -> operator_div this other = Undefined) /\
  (b <> 0 -> ~ (a = LLONG_MIN /\ b = -1) ->
   exists f,
     parseUnix (Z.quot a b) 0%float = Ok f /\
     operator_div this other = Ok (mkDateTime (to_string (Z.quot a b)) f 0%float)) /\
  (forall e, operator_div this other <> Throw e).
Proof.
  intros Ha Hb. unfold operator_div. rewrite Ha, Hb. cbn [mbind outcome_bind].
  pose proof (stoll_range _ _ Ha) as Hra. pose proof (stoll_range _ _ Hb) as Hrb.
  destruct (Z.eqb_spec b 0) as [Hb0|Hb0].
  - repeat split; [contradiction | discriminate].
  - split; [contradiction|].
    destruct (Z.eqb_spec a LLONG_MIN) as [Ha0|Ha0], (Z.eqb_spec b (-1)) as [Hb1|Hb1];
      cbn [andb].
    + split; [intros _ Hov; exfalso; apply Hov; auto | discriminate].
    + destruct (DateTime_from_to_string (Z.quot a b)) as (f & Hp & Hd);
        [apply quot_is_ll; tauto|].
      rewrite Hd. split; [eauto | discriminate].
    + destruct (DateTime_from_to_string (Z.quot a b)) as (f & Hp & Hd);
        [apply quot_is_ll; tauto|].
      rewrite Hd. split; [eauto | discriminate].
    + destruct (DateTime_from_to_string (Z.quot a b)) as (f & Hp & Hd);
        [apply quot_is_ll; tauto|].
      rewrite Hd. split; [eauto | discriminate].
Qed.

Lemma operator_div_unguarded_witness :
  let this := mkDateTime (text "-100") (mkFields 1969 11 Wednesday 30 23 58 20) 0%float in
  let other := mkDateTime (text "7") (mkFields 1970 0 Thursday 0 0 0 7) 0%float in
  stoll (unix_str this) = Ok (-100) /\
  stoll (unix_str other) = Ok 7 /\
  (7 = 0 -> operator_div this other = Undefined) /\
  (7 <> 0 -> ~ (-100 = LLONG_MIN /\ 7 = -1) ->
   exists f,
     parseUnix (Z.quot (-100) 7) 0%float = Ok f /\
     operator_div this other = Ok (mkDateTime (to_string (Z.quot (-100) 7)) f 0%float)) /\
  (forall e, operator_div this other <> Throw e).
Proof.
  intros this other.
  split; [reflexivity|]. split; [reflexivity|].
  apply (operator_div_unguarded this other (-100) 7); reflexivity.
Defined.

(** C9 as worded fails on the code: DateTime("10") / DateTime("0") reaches
    the integer division with a zero divisor; nothing is thrown, a domain
    error least of all. *)
Lemma operator_div_by_zero_throws_nothing :
  exists this other,
    DateTime_from_string (text "10") 0%float = Ok this /\
    DateTime_from_string (text "0") 0%float = Ok other /\
    operator_div this other = Undefined /\
    forall what, operator_div this other <> Throw (domain_error what).
Proof.
  eexists _, _. split; [vm_compute; reflexivity|]. split; [vm_compute; reflexivity|].
  split; [vm_compute; reflexivity|].
  intros what. vm_compute. discriminate.
Qed.

Example operator_examples :
  (d ← DateTime_from_string (text "100") 0%float;
   e ← DateTime_from_string (text "50") 0%float;
   s ← operator_add d e; Ok (unix_str s)) = Ok (text "150") /\
  (d ← DateTime_from_string (text "-7") 0%float;
   e ← DateTime_from_string (text "2") 0%float;
   s ← operator_div d e; Ok (unix_str s)) = Ok (text "-3").
Proof. split; vm_compute; reflexivity. Qed.

(** * Further properties *)

(** ** Calendar arithmetic *)

(** X1: [daysInMonth] throws its invalid-argument error exactly for a month
    outside 0..11; otherwise it returns a length between 28 and 31, and the
    length is 29 exactly for February of a leap year and 28 exactly for
    February of any other year. *)
Theorem daysInMonth_behaviour (year month : Z) :
  (daysInMonth year month = Throw (invalid_argument "Invalid month (must be 0-11)")
   <-> month < 0 \/ 11 < month) /\
  ((exists n, daysInMonth year month = Ok n) <-> 0 <= month <= 11) /\
  (forall n, daysInMonth year month = Ok n ->
     28 <= n <= 31 /\
     (n = 29 <-> month = 1 /\ isLeapYear year = true) /\
     (n = 28 <-> month = 1 /\ isLeapYear year = false)).
Proof.
  assert (Hout : month < 0 \/ 11 < month ->
                 daysInMonth year month
                 = Throw (invalid_argument "Invalid month (must be 0-11)")).
  { intros H. unfold daysInMonth.
    destruct (Z.ltb_spec month 0); [reflexivity|].
    destruct (Z.gtb_spec month 11); [reflexivity | lia]. }
  destruct (Z_lt_le_dec month 0) as [Hlo|Hlo];
    [| destruct (Z_lt_le_dec 11 month) as [Hhi|Hhi]].
  - rewrite Hout by lia. split; [tauto|]. split.
    + split; [intros [n Hn]; discriminate | lia].
    + intros n Hn. discriminate.
  - rewrite Hout by lia. split; [tauto|]. split.
    + split; [intros [n Hn]; discriminate | lia].
    + intros n Hn. discriminate.
  - rewrite daysInMonth_ok by lia. split; [split; [discriminate | lia]|].
    split; [split; [lia | eauto]|].
    intros n [= <-].
    assert (Hcases : month = 0 \/ month = 1 \/ month = 2 \/ month = 3 \/ month = 4 \/
                     month = 5 \/ month = 6 \/ month = 7 \/ month = 8 \/ month = 9 \/
                     month = 10 \/ month = 11) by lia.
    clear Hlo Hhi Hout.
    repeat (destruct Hcases as [->|Hcases]); try subst month;
      destruct (isLeapYear year); vm_compute; intuition (discriminate || congruence).
Qed.

(** X2: the twelve month lengths of a year are all defined and add up to the
    year length the year walk uses: 366 for a leap year, 365 otherwise. *)
Theorem monthLengths_sum (year : Z) :
  exists lengths : list Z,
    monthLengths year = map Ok lengths /\
    length lengths = 12%nat /\
    foldr Z.add 0 lengths = daysInYear year /\
    daysInYear year = (if isLeapYear year then 366 else 365).
Proof.
  unfold monthLengths, daysInYear.
  destruct (isLeapYear year) eqn:Hleap.
  - exists [31; 29; 31; 30; 31; 30; 31; 31; 30; 31; 30; 31].
    cbn [map]. rewrite !daysInMonth_ok by lia. rewrite Hleap. repeat split.
  - exists [31; 28; 31; 30; 31; 30; 31; 31; 30; 31; 30; 31].
    cbn [map]. rewrite !daysInMonth_ok by lia. rewrite Hleap. repeat split.
Qed.

(** X3: [dotwByDate] checks the month first and the day second: a month
    outside 1..12 gives "Month must be 1-12", a day outside
    1..daysInMonth(year, month - 1) gives "Invalid day for month", and every
    other date gives a weekday index between 0 and 6. *)
Theorem dotwByDate_behaviour (year month day : Z) :
  (month < 1 \/ 12 < month ->
   dotwByDate year month day = Throw (invalid_argument "Month must be 1-12")) /\
  (1 <= month <= 12 ->
   exists monthDays,
     daysInMonth year (month - 1) = Ok monthDays /\
     (day < 1 \/ monthDays < day ->
      dotwByDate year month day = Throw (invalid_argument "Invalid day for month")) /\
     (1 <= day <= monthDays ->
      exists w, dotwByDate year month day = Ok w /\ 0 <= w <= 6)).
Proof.
  split.
  - intros Hm. unfold dotwByDate.
    destruct (Z.ltb_spec month 1); [reflexivity|].
    destruct (Z.gtb_spec month 12); [reflexivity | lia].
  - intros Hm.
    pose proof (daysInMonth_ok year (month - 1) ltac:(lia)) as Hmd.
    eexists. split; [exact Hmd|]. split.
    + intros Hd. unfold dotwByDate.
      destruct (Z.ltb_spec month 1); [lia|].
      destruct (Z.gtb_spec month 12); [lia|]. cbn [orb].
      rewrite (to_uchar_id (month - 1)) by lia. rewrite Hmd. cbn [mbind outcome_bind].
      match goal with |- context [day >? ?n] =>
        destruct (Z.ltb_spec day 1); [reflexivity|];
        destruct (Z.gtb_spec day n); [reflexivity | lia]
      end.
    + intros Hd. eexists. split.
      * eapply dotwByDate_ok; eassumption.
      * apply zellerTrunc_range.
Qed.

(** X4: from year 1 on, [dotwByDate] is the weekday of the date: its day
    number, counted from Thursday 1970-01-01, taken modulo 7 with Sunday as
    0. *)
Theorem dotwByDate_weekday (year month day monthDays : Z) :
  1 <= year ->
  1 <= month <= 12 ->
  daysInMonth year (month - 1) = Ok monthDays ->
  1 <= day <= monthDays ->
  dotwByDate year month day = Ok ((days_from_civil year month day + Thursday) mod 7).
Proof.
  intros Hy Hm Hmd Hd.
  rewrite (dotwByDate_zellerFloor year month day monthDays) by assumption.
  rewrite zellerFloor_weekday by assumption. reflexivity.
Qed.

Lemma dotwByDate_weekday_witness :
  1 <= 2024 /\ 1 <= 2 <= 12 /\ daysInMonth 2024 (2 - 1) = Ok 29 /\ 1 <= 29 <= 29 /\
  dotwByDate 2024 2 29 = Ok ((days_from_civil 2024 2 29 + Thursday) mod 7).
Proof.
  split; [lia|]. split; [lia|]. split; [reflexivity|]. split; [lia|].
  apply (dotwByDate_weekday 2024 2 29 29); [lia | lia | reflexivity | lia].
Defined.

(** ** The epoch conversion *)

Lemma walkYearsForward_short (fuel : nat) :
  forall days year d y,
    -32768 <= year <= 32767 ->
    walkYearsForward fuel days year = Ok (d, y) -> -32768 <= y <= 32767.
Proof.
  induction fuel as [|fuel IH]; intros days year d y Hy; [discriminate|].
  cbn [walkYearsForward]. destruct (days >=? daysInYear year).
  - apply IH. apply to_short_range.
  - intros [= <- <-]. exact Hy.
Qed.

Lemma walkYearsBackward_short (fuel : nat) :
  forall days year d y,
    -32768 <= year <= 32767 ->
    walkYearsBackward fuel days year = Ok (d, y) -> -32768 <= y <= 32767.
Proof.
  induction fuel as [|fuel IH]; intros days year d y Hy; [discriminate|].
  cbn [walkYearsBackward]. destruct (days <? 0).
  - cbv zeta. apply IH. apply to_short_range.
  - intros [= <- <-]. exact Hy.
Qed.

Lemma walkYears_short (D d y : Z) : walkYears D = Ok (d, y) -> -32768 <= y <= 32767.
Proof.
  unfold walkYears, defYears. destruct (D >=? 0).
  - apply walkYearsForward_short. lia.
  - apply walkYearsBackward_short. lia.
Qed.

(** X5: whatever the epoch and the offset, the fields [parseUnix] stores are
    in range: the year fits [short], hour, minute and second are a clock
    time that adds up to the second of the local day, and the weekday is an
    index 0..6 that [dotwByDate] gives for the stored date. *)
Theorem parseUnix_field_ranges (_unix : Z) (timezoneOffset : float) :
  exists f,
    parseUnix _unix timezoneOffset = Ok f /\
    -32768 <= years f <= 32767 /\
    0 <= hours f <= 23 /\ 0 <= minutes f <= 59 /\ 0 <= seconds f <= 59 /\
    hours f * 3600 + minutes f * 60 + seconds f
    = adjustedUnix _unix timezoneOffset mod 86400 /\
    0 <= dotw f <= 6 /\
    dotwByDate (years f) (months f + 1) (days f + 1) = Ok (dotw f).
Proof.
  destruct (parseUnix_decompose _unix timezoneOffset)
    as (dy & y & d & m & monthDays & Hwy & _ & _ & Hm & _ & Hmd & Hd & Hp).
  rewrite splitDays_div_mod in Hp. cbn [fst snd] in Hp. unfold secondsInDay in Hp.
  eexists. split; [exact Hp|]. cbn [years months days hours minutes seconds dotw].
  pose proof (Z.mod_pos_bound (adjustedUnix _unix timezoneOffset) 86400 eq_refl) as Hr.
  set (r := adjustedUnix _unix timezoneOffset mod 86400) in *. clearbody r.
  split; [eapply walkYears_short; exact Hwy|].
  split; [Z.to_euclidean_division_equations; lia|].
  split; [Z.to_euclidean_division_equations; lia|].
  split; [Z.to_euclidean_division_equations; lia|].
  split; [Z.to_euclidean_division_equations; lia|].
  split; [apply zellerTrunc_range|].
  apply (dotwByDate_ok y (m + 1) (d + 1) monthDays);
    [lia | replace (m + 1 - 1) with m by lia; exact Hmd | lia].
Qed.

(** X6: at any offset, as long as the shifted epoch lies between the days
    -12,000,000 and 11,000,000 (years -30884 to 32086), the stored fields
    are the civil date and time of the shifted epoch: every field is in its
    range (month 0..11, day within the month, hour 0..23, minute and second
    0..59), the date is the one whose day number is the floor of the shifted
    epoch over 86400, the time is the second of that day, and encoded back
    through the day-number formula the fields give the shifted epoch
    exactly. *)
Theorem parseUnix_local_time (_unix : Z) (timezoneOffset : float) :
  -12000000 * 86400 <= adjustedUnix _unix timezoneOffset <= 11000000 * 86400 ->
  exists f monthDays,
    parseUnix _unix timezoneOffset = Ok f /\
    0 <= months f <= 11 /\
    daysInMonth (years f) (months f) = Ok monthDays /\
    0 <= days f < monthDays /\
    0 <= hours f <= 23 /\ 0 <= minutes f <= 59 /\ 0 <= seconds f <= 59 /\
    days_from_civil (years f) (months f + 1) (days f + 1)
    = adjustedUnix _unix timezoneOffset / 86400 /\
    hours f * 3600 + minutes f * 60 + seconds f
    = adjustedUnix _unix timezoneOffset mod 86400 /\
    civil_to_epoch f = adjustedUnix _unix timezoneOffset.
Proof.
  intros He.
  destruct (parseUnix_decompose _unix timezoneOffset)
    as (dy & y & d & m & monthDays & Hwy & _ & Hdy & Hm & Hsum & Hmd & Hd & Hp).
  rewrite splitDays_div_mod in *. cbn [fst snd] in *. unfold secondsInDay in *.
  set (e := adjustedUnix _unix timezoneOffset) in *. clearbody e.
  eexists _, monthDays. split; [exact Hp|].
  unfold civil_to_epoch. cbn [years months days hours minutes seconds].
  apply walkYears_civil in Hwy; [|Z.to_euclidean_division_equations; lia].
  assert (Hday : days_from_civil y (m + 1) (d + 1) = e / 86400)
    by (rewrite days_from_civil_month by assumption; lia).
  pose proof (Z.mod_pos_bound e 86400 eq_refl) as Hr.
  pose proof (Z.div_mod e 86400 ltac:(lia)) as He'.
  rewrite Hday.
  set (D := e / 86400) in *. set (r := e mod 86400) in *. clearbody D r.
  split; [exact Hm|]. split; [exact Hmd|]. split; [exact Hd|].
  repeat split; try reflexivity; Z.to_euclidean_division_equations; lia.
Qed.

Lemma parseUnix_local_time_witness :
  -12000000 * 86400 <= adjustedUnix 951782399 1.5%float <= 11000000 * 86400 /\
  exists f monthDays,
    parseUnix 951782399 1.5%float = Ok f /\
    0 <= months f <= 11 /\
    daysInMonth (years f) (months f) = Ok monthDays /\
    0 <= days f < monthDays /\
    0 <= hours f <= 23 /\ 0 <= minutes f <= 59 /\ 0 <= seconds f <= 59 /\
    days_from_civil (years f) (months f + 1) (days f + 1)
    = adjustedUnix 951782399 1.5%float / 86400 /\
    hours f * 3600 + minutes f * 60 + seconds f
    = adjustedUnix 951782399 1.5%float mod 86400 /\
    civil_to_epoch f = adjustedUnix 951782399 1.5%float.
Proof.
  split; [vm_compute; split; discriminate|].
  apply (parseUnix_local_time 951782399 1.5%float). vm_compute. split; discriminate.
Defined.

Lemma days_from_civil_before_year_one (y : Z) :
  y <= 0 -> days_from_civil y 1 1 <= -719528.
Proof.
  intros Hy. unfold days_from_civil.
  cbn [Z.leb Z.gtb Z.compare Pos.compare Pos.compare_cont]. cbv zeta.
  change ((153 * (1 + 9) + 2) / 5) with 306.
  Z.to_euclidean_division_equations. lia.
Qed.

(** X7: for a shifted epoch from 0001-01-01 on (day -719162) up to day
    11,000,000, the stored weekday is the day count since 1970-01-01 plus
    Thursday, modulo 7: consecutive days get consecutive weekdays. *)
Theorem parseUnix_weekday (_unix : Z) (timezoneOffset : float) :
  let D := adjustedUnix _unix timezoneOffset / 86400 in
  -719162 <= D <= 11000000 ->
  exists f,
    parseUnix _unix timezoneOffset = Ok f /\
    dotw f = (D + Thursday) mod 7.
Proof.
  intros D HD.
  destruct (parseUnix_decompose _unix timezoneOffset)
    as (dy & y & d & m & monthDays & Hwy & _ & Hdy & Hm & Hsum & Hmd & Hd & Hp).
  rewrite splitDays_div_mod in *. cbn [fst snd] in *. unfold secondsInDay in *.
  fold D in Hwy.
  eexists. split; [exact Hp|]. cbn [dotw].
  apply walkYears_civil in Hwy; [|lia].
  pose proof (daysInYear_bounds y) as Hylen.
  assert (Hy : 1 <= y).
  { destruct (Z_lt_le_dec y 1) as [Hlt|Hge]; [|exact Hge].
    pose proof (days_from_civil_before_year_one y ltac:(lia)). lia. }
  pose proof (dotwByDate_ok y (m + 1) (d + 1) monthDays ltac:(lia)) as Hok.
  replace (m + 1 - 1) with m in Hok by lia. specialize (Hok Hmd ltac:(lia)).
  pose proof (dotwByDate_zellerFloor y (m + 1) (d + 1) monthDays Hy ltac:(lia)) as Hfl.
  replace (m + 1 - 1) with m in Hfl by lia. specialize (Hfl Hmd ltac:(lia)).
  rewrite Hok in Hfl. injection Hfl as ->.
  rewrite zellerFloor_weekday by lia.
  rewrite days_from_civil_month by assumption. f_equal. lia.
Qed.

Lemma parseUnix_weekday_witness :
  let D := adjustedUnix (-86400) 0%float / 86400 in
  -719162 <= D <= 11000000 /\
  exists f, parseUnix (-86400) 0%float = Ok f /\ dotw f = (D + Thursday) mod 7.
Proof.
  intros D. split; [vm_compute; split; discriminate|].
  apply (parseUnix_weekday (-86400) 0%float). vm_compute. split; discriminate.
Defined.

Lemma parseUnix_shift (_unix : Z) (timezoneOffset : float) :
  parseUnix _unix timezoneOffset = parseUnix (adjustedUnix _unix timezoneOffset) 0%float.
Proof.
  unfold parseUnix at 2. rewrite timezoneSeconds_zero, Z.add_0_r.
  rewrite (to_ll_id (adjustedUnix _unix timezoneOffset)) by apply to_ll_range.
  reflexivity.
Qed.

Lemma halfHours_seconds (k : Z) :
  -48 <= k <= 48 ->
  double_to_ll (PrimFloat.mul (halfHours k) 3600%float) = 1800 * k.
Proof.
  intros Hk.
  assert (Hall : Forall (fun k => double_to_ll (PrimFloat.mul (halfHours k) 3600%float)
                                  = 1800 * k) (seqZ (-48) 97)).
  { apply (bool_decide_unpack _). vm_compute. exact I. }
  rewrite Forall_forall in Hall. apply Hall. apply elem_of_seqZ. lia.
Qed.

(** X23: an offset of [k] half hours, from -24 h to +24 h, moves the clock
    by exactly 1800 k seconds: the fields at that offset are the fields of
    the shifted epoch at offset zero (as long as the shifted epoch fits 64
    bits). *)
Theorem parseUnix_half_hour_offsets (_unix k : Z) :
  -48 <= k <= 48 ->
  is_ll (_unix + 1800 * k) ->
  parseUnix _unix (halfHours k) = parseUnix (_unix + 1800 * k) 0%float.
Proof.
  intros Hk Hrange.
  rewrite parseUnix_shift. unfold adjustedUnix.
  rewrite halfHours_seconds by exact Hk.
  rewrite to_ll_id by exact Hrange. reflexivity.
Qed.

Lemma parseUnix_half_hour_offsets_witness :
  -48 <= -11 <= 48 /\ is_ll (10368000 + 1800 * -11) /\
  parseUnix 10368000 (halfHours (-11)) = parseUnix (10368000 + 1800 * -11) 0%float.
Proof.
  split; [lia|]. split; [vm_compute; split; discriminate|].
  apply (parseUnix_half_hour_offsets 10368000 (-11)); [lia|].
  vm_compute. split; discriminate.
Defined.

Example halfHours_values :
  halfHours 11 = 5.5%float /\ halfHours (-7) = (-3.5)%float /\ halfHours 0 = 0%float.
Proof. repeat split; vm_compute; reflexivity. Qed.

(** ** The format parser *)

Lemma tolower_idempotent (c : ascii) : tolower (tolower c) = tolower c.
Proof. destruct c as [[] [] [] [] [] [] [] []]; reflexivity. Qed.

Lemma tolower_space (c : ascii) : tolower c = " "%char -> c = " "%char.
Proof. destruct c as [[] [] [] [] [] [] [] []]; vm_compute; intros H; congruence. Qed.

Lemma normalizeFormat_toLowercase (format : list ascii) :
  normalizeFormat (toLowercase format) = normalizeFormat format.
Proof.
  unfold normalizeFormat, toLowercase. f_equal.
  rewrite map_map. apply map_ext. intros c. apply tolower_idempotent.
Qed.

Lemma normalizeFormat_removeAll (format : list ascii) :
  normalizeFormat (removeAll format " "%char) = normalizeFormat format.
Proof.
  unfold normalizeFormat, toLowercase, removeAll.
  induction format as [|c l IH]; [reflexivity|].
  rewrite filter_cons. destruct (decide (c <> " "%char)) as [Hc|Hc].
  - cbn [map]. rewrite !filter_cons, IH. reflexivity.
  - cbn [map]. rewrite filter_cons, IH.
    destruct (decide (tolower c <> " "%char)) as [Ht|Ht]; [|reflexivity].
    exfalso. apply Hc. intros ->. apply Ht. reflexivity.
Qed.

(** X8: format strings are read without regard to case and to spaces:
    lower-casing a format, or taking its spaces out, changes neither whether
    it parses nor the format it parses to. *)
Theorem DateTimeFormat_ignores_case_and_spaces (format : list ascii) :
  DateTimeFormat_from_string (toLowercase format) = DateTimeFormat_from_string format /\
  DateTimeFormat_from_string (removeAll format " "%char) = DateTimeFormat_from_string format.
Proof.
  unfold DateTimeFormat_from_string.
  rewrite normalizeFormat_toLowercase, normalizeFormat_removeAll. split; reflexivity.
Qed.

Lemma isOrderToken_elem (c : ascii) :
  isOrderToken c = true
  <-> c ∈ [dayToken; monthToken; yearToken; alphabeticalMonthToken].
Proof.
  unfold isOrderToken. rewrite !orb_true_iff, !elem_of_cons, elem_of_nil.
  destruct (Ascii.eqb_spec c dayToken), (Ascii.eqb_spec c monthToken),
    (Ascii.eqb_spec c yearToken), (Ascii.eqb_spec c alphabeticalMonthToken);
    intuition discriminate.
Qed.

Lemma deduplicated_length (newFormat : list ascii) :
  length (firstOccurrences (orderTokens newFormat)) = orderTokensPresent newFormat.
Proof.
  unfold orderTokensPresent. apply Permutation_length. apply NoDup_Permutation.
  - apply firstOccurrences_NoDup.
  - apply NoDup_filter. repeat constructor; rewrite ?elem_of_cons, ?elem_of_nil;
      intuition discriminate.
  - intros c. rewrite firstOccurrences_elem. unfold orderTokens.
    rewrite !list_elem_of_filter, <- isOrderToken_elem.
    destruct (isOrderToken c); cbn; intuition discriminate.
Qed.

(** X9: a format parses exactly when three of the four order tokens d, m, y
    and a occur in it (in lower case, spaces removed), whichever three they
    are; the order of the parsed format then holds those three tokens and
    nothing else. *)
Theorem DateTimeFormat_parses_iff_three_tokens (format : list ascii) :
  ((exists f, DateTimeFormat_from_string format = Ok f)
   <-> orderTokensPresent (normalizeFormat format) = 3%nat) /\
  (forall f, DateTimeFormat_from_string format = Ok f ->
     length (order f) = 3%nat /\ NoDup (order f) /\
     forall c, c ∈ order f
               <-> c ∈ [dayToken; monthToken; yearToken; alphabeticalMonthToken]
                   /\ c ∈ normalizeFormat format).
Proof.
  rewrite DateTimeFormat_from_string_unfold. cbv zeta.
  rewrite deduplicated_length.
  destruct (Nat.eqb_spec (orderTokensPresent (normalizeFormat format)) 3) as [Hn|Hn].
  - split; [split; [auto | eauto]|].
    intros f [= <-]. flags_simpl.
    rewrite deduplicated_length. split; [exact Hn|].
    split; [apply firstOccurrences_NoDup|].
    intros c. rewrite firstOccurrences_elem. unfold orderTokens.
    rewrite list_elem_of_filter, <- isOrderToken_elem.
    destruct (isOrderToken c); cbn; intuition discriminate.
  - split; [split; [intros [f Hf]; discriminate | contradiction]|].
    intros f Hf. discriminate.
Qed.

Example DateTimeFormat_without_year :
  order <$> DateTimeFormat_from_string (text "D.M.A") = Ok (text "dma").
Proof. vm_compute. reflexivity. Qed.

(** The flags a token sets, whatever follows it. *)
Lemma scanFormat_showTime (l : list ascii) :
  forall this order,
    showTime (scanFormat l this order).1 = true
    <-> showTime this = true \/ hourToken ∈ l \/ minuteToken ∈ l \/ secondToken ∈ l.
Proof.
  induction l as [|token l IH]; intros this order.
  - cbn. rewrite !elem_of_nil. tauto.
  - assert (hourToken <> dotwToken /\ minuteToken <> dotwToken /\ secondToken <> dotwToken
            /\ hourToken <> _12HoursToken /\ minuteToken <> _12HoursToken
            /\ secondToken <> _12HoursToken /\ hourToken <> timezoneOffsetToken
            /\ minuteToken <> timezoneOffsetToken /\ secondToken <> timezoneOffsetToken)
      as (? & ? & ? & ? & ? & ? & ? & ? & ?) by (repeat split; discriminate).
    scan_cases token; cbv zeta; rewrite IH, !elem_of_cons.
    + destruct (next_is (head l) dotwToken); flags_simpl; intuition congruence.
    + assert (hourToken <> token /\ minuteToken <> token /\ secondToken <> token)
        as (? & ? & ?) by (repeat split; intros <-; discriminate).
      destruct (head l), (next_is _ _ && negb _), (Ascii.eqb token alphabeticalMonthToken),
        (length (order ++ [token]) <? 3)%nat; flags_simpl; intuition congruence.
    + assert (hourToken = token \/ minuteToken = token \/ secondToken = token).
      { destruct (Ascii.eqb_spec token hourToken), (Ascii.eqb_spec token minuteToken),
          (Ascii.eqb_spec token secondToken); auto; discriminate. }
      destruct (next_is _ _ && negb _); flags_simpl; intuition congruence.
    + flags_simpl. intuition congruence.
    + flags_simpl. intuition congruence.
    + assert (hourToken <> token /\ minuteToken <> token /\ secondToken <> token)
        as (? & ? & ?).
      { destruct (Ascii.eqb_spec token hourToken), (Ascii.eqb_spec token minuteToken),
          (Ascii.eqb_spec token secondToken); try discriminate.
        repeat split; congruence. }
      intuition congruence.
Qed.

Lemma scanFormat_12Hours (l : list ascii) :
  forall this order,
    _12Hours (scanFormat l this order).1 = true
    <-> _12Hours this = true \/ _12HoursToken ∈ l.
Proof.
  induction l as [|token l IH]; intros this order.
  - cbn. rewrite elem_of_nil. tauto.
  - token_facts. assert (_12HoursToken <> timezoneOffsetToken) by discriminate.
    scan_cases token; cbv zeta; rewrite IH, elem_of_cons.
    + destruct (next_is (head l) dotwToken); flags_simpl; intuition congruence.
    + assert (_12HoursToken <> token) by (intros <-; discriminate).
      destruct (head l), (next_is _ _ && negb _), (Ascii.eqb token alphabeticalMonthToken),
        (length (order ++ [token]) <? 3)%nat; flags_simpl; intuition congruence.
    + assert (_12HoursToken <> token) by (intros <-; discriminate).
      destruct (next_is _ _ && negb _); flags_simpl; intuition congruence.
    + flags_simpl. tauto.
    + flags_simpl. intuition congruence.
    + intuition congruence.
Qed.

Lemma scanFormat_showUTCoffset (l : list ascii) :
  forall this order,
    showUTCoffset (scanFormat l this order).1 = true
    <-> showUTCoffset this = true \/ timezoneOffsetToken ∈ l.
Proof.
  induction l as [|token l IH]; intros this order.
  - cbn. rewrite elem_of_nil. tauto.
  - token_facts. assert (_12HoursToken <> timezoneOffsetToken) by discriminate.
    scan_cases token; cbv zeta; rewrite IH, elem_of_cons.
    + destruct (next_is (head l) dotwToken); flags_simpl; intuition congruence.
    + assert (timezoneOffsetToken <> token) by (intros <-; discriminate).
      destruct (head l), (next_is _ _ && negb _), (Ascii.eqb token alphabeticalMonthToken),
        (length (order ++ [token]) <? 3)%nat; flags_simpl; intuition congruence.
    + assert (timezoneOffsetToken <> token) by (intros <-; discriminate).
      destruct (next_is _ _ && negb _); flags_simpl; intuition congruence.
    + flags_simpl. intuition congruence.
    + flags_simpl. tauto.
    + intuition congruence.
Qed.

(** X10: on a format that parses, each display flag is set exactly when its
    token occurs somewhere in the format (lower case, spaces removed): w for
    the weekday, any of h, i, s for the time, _ for the 12-hour clock, o for
    the UTC offset, a for the alphabetical month; letters of literal text
    count as tokens. *)
Theorem parsed_flags_follow_tokens (format : list ascii) (f : DateTimeFormat) :
  DateTimeFormat_from_string format = Ok f ->
  let newFormat := normalizeFormat format in
  (showDotw f = true <-> dotwToken ∈ newFormat) /\
  (showTime f = true
   <-> hourToken ∈ newFormat \/ minuteToken ∈ newFormat \/ secondToken ∈ newFormat) /\
  (_12Hours f = true <-> _12HoursToken ∈ newFormat) /\
  (showUTCoffset f = true <-> timezoneOffsetToken ∈ newFormat) /\
  (alphabeticalMonth f = true <-> alphabeticalMonthToken ∈ newFormat).
Proof.
  intros Hf newFormat. apply parsed_format_flags in Hf. cbv zeta in Hf. subst f.
  fold newFormat. flags_simpl.
  rewrite scanFormat_showDotw, scanFormat_showTime, scanFormat_12Hours,
    scanFormat_showUTCoffset, scanFormat_alphabeticalMonth.
  flags_simpl. intuition discriminate.
Qed.

Lemma parsed_flags_follow_tokens_witness :
  let f := mkFormat "/" true true false false false true false (text "ymd") in
  DateTimeFormat_from_string (text "Week w: y/m/d h_") = Ok f /\
  let newFormat := normalizeFormat (text "Week w: y/m/d h_") in
  (showDotw f = true <-> dotwToken ∈ newFormat) /\
  (showTime f = true
   <-> hourToken ∈ newFormat \/ minuteToken ∈ newFormat \/ secondToken ∈ newFormat) /\
  (_12Hours f = true <-> _12HoursToken ∈ newFormat) /\
  (showUTCoffset f = true <-> timezoneOffsetToken ∈ newFormat) /\
  (alphabeticalMonth f = true <-> alphabeticalMonthToken ∈ newFormat).
Proof.
  intros f. split; [vm_compute; reflexivity|].
  apply (parsed_flags_follow_tokens (text "Week w: y/m/d h_") f). vm_compute. reflexivity.
Defined.

Lemma paddingToken_class (c : ascii) :
  c ∈ paddingTokens
  <-> isOrderToken c = true
      \/ (Ascii.eqb c hourToken || Ascii.eqb c minuteToken || Ascii.eqb c secondToken) = true.
Proof.
  unfold paddingTokens, isOrderToken.
  rewrite !orb_true_iff, !elem_of_cons, elem_of_nil.
  destruct (Ascii.eqb_spec c dayToken), (Ascii.eqb_spec c monthToken),
    (Ascii.eqb_spec c yearToken), (Ascii.eqb_spec c alphabeticalMonthToken),
    (Ascii.eqb_spec c hourToken), (Ascii.eqb_spec c minuteToken),
    (Ascii.eqb_spec c secondToken); intuition discriminate.
Qed.

Lemma doubled_padding_cons (c : ascii) (l : list ascii) :
  (exists t, t ∈ paddingTokens /\ doubledAt t (c :: l))
  <-> (c ∈ paddingTokens /\ head l = Some c)
      \/ (exists t, t ∈ paddingTokens /\ doubledAt t l).
Proof.
  split.
  - intros (t & Ht & Hd). apply doubledAt_cons in Hd as [[-> Hh]|Hd]; [left; auto|].
    right. exists t. auto.
  - intros [[Hc Hh]|(t & Ht & Hd)].
    + exists c. split; [exact Hc|]. apply doubledAt_cons. left. auto.
    + exists t. split; [exact Ht|]. apply doubledAt_cons. right. exact Hd.
Qed.

Lemma scanFormat_fillZeros (l : list ascii) :
  forall this order,
    fillZeros (scanFormat l this order).1 = true
    <-> fillZeros this = true \/ exists t, t ∈ paddingTokens /\ doubledAt t l.
Proof.
  induction l as [|token l IH]; intros this order.
  - cbn. split; [auto|]. intros [H|(t & _ & Hd)]; [exact H|]. destruct (doubledAt_nil _ Hd).
  - rewrite doubled_padding_cons, paddingToken_class.
    scan_cases token; cbv zeta; rewrite IH.
    + change (isOrderToken dotwToken) with false.
      change (Ascii.eqb dotwToken hourToken || Ascii.eqb dotwToken minuteToken
              || Ascii.eqb dotwToken secondToken) with false.
      destruct (next_is (head l) dotwToken); flags_simpl; intuition discriminate.
    + destruct (next_is (head l) token) eqn:Hn.
      * apply next_is_true in Hn.
        destruct (fillZeros this) eqn:Hz; cbn [andb negb];
          destruct (head l), (Ascii.eqb token alphabeticalMonthToken),
            (length (order ++ [token]) <? 3)%nat; flags_simpl; rewrite ?Hz; tauto.
      * assert (head l <> Some token)
          by (intros Hh; apply next_is_true in Hh; congruence).
        cbn [andb].
        destruct (head l), (Ascii.eqb token alphabeticalMonthToken),
          (length (order ++ [token]) <? 3)%nat; flags_simpl; tauto.
    + destruct (next_is (head l) token) eqn:Hn.
      * apply next_is_true in Hn.
        destruct (fillZeros this) eqn:Hz; cbn [andb negb]; flags_simpl; rewrite ?Hz; tauto.
      * assert (head l <> Some token)
          by (intros Hh; apply next_is_true in Hh; congruence).
        cbn [andb]. flags_simpl. intuition discriminate.
    + change (isOrderToken _12HoursToken) with false.
      change (Ascii.eqb _12HoursToken hourToken || Ascii.eqb _12HoursToken minuteToken
              || Ascii.eqb _12HoursToken secondToken) with false.
      flags_simpl. intuition discriminate.
    + change (isOrderToken timezoneOffsetToken) with false.
      change (Ascii.eqb timezoneOffsetToken hourToken
              || Ascii.eqb timezoneOffsetToken minuteToken
              || Ascii.eqb timezoneOffsetToken secondToken) with false.
      flags_simpl. intuition discriminate.
    + intuition discriminate.
Qed.

(** X11: a parsed format pads with zeros exactly when one of the tokens d,
    m, y, a, h, i, s is immediately followed by itself somewhere in the
    format (lower case, spaces removed); one doubled token pads every
    field. *)
Theorem parsed_fillZeros_iff_doubled (format : list ascii) (f : DateTimeFormat) :
  DateTimeFormat_from_string format = Ok f ->
  (fillZeros f = true
   <-> exists t, t ∈ paddingTokens /\ doubledAt t (normalizeFormat format)).
Proof.
  intros Hf. apply parsed_format_flags in Hf. cbv zeta in Hf. subst f. flags_simpl.
  rewrite scanFormat_fillZeros. flags_simpl. intuition discriminate.
Qed.

Lemma parsed_fillZeros_iff_doubled_witness :
  let f := mkFormat "/" false true false true false false false (text "dmy") in
  DateTimeFormat_from_string (text "d/m/y hh:i") = Ok f /\
  (fillZeros f = true
   <-> exists t, t ∈ paddingTokens /\ doubledAt t (normalizeFormat (text "d/m/y hh:i"))).
Proof.
  intros f. split; [vm_compute; reflexivity|].
  apply (parsed_fillZeros_iff_doubled (text "d/m/y hh:i") f). vm_compute. reflexivity.
Defined.

Lemma parsed_format_delimiter_witness :
  let f := mkFormat "y" false false false false false false false (text "dmy") in
  DateTimeFormat_from_string (text "dmy") = Ok f /\
  exists (p1 p2 : nat) (ps : list nat),
    orderTokenPositions (normalizeFormat (text "dmy")) = p1 :: p2 :: ps /\
    normalizeFormat (text "dmy") !! S p2 = Some (delimiter f).
Proof.
  intros f. split; [vm_compute; reflexivity|].
  apply (parsed_format_delimiter (text "dmy") f). vm_compute. reflexivity.
Defined.

Lemma filter_ne_not_elem (x : ascii) (l : list ascii) :
  x ∉ l -> filter (fun y => y <> x) l = l.
Proof.
  induction l as [|y l IH]; intros Hx; [reflexivity|].
  apply not_elem_of_cons in Hx as [Hne Hx].
  rewrite filter_cons, decide_True by congruence. f_equal. apply IH. exact Hx.
Qed.

(** X22: [removeDuplicates] keeps exactly the characters of its argument,
    each once, in the order of their first occurrences: the result has no
    duplicates, is a subsequence of the argument, leaves a string without
    duplicates as it is, and removing duplicates twice changes nothing
    more. *)
Theorem removeDuplicates_properties (str : list ascii) :
  NoDup (removeDuplicates str) /\
  (forall c, c ∈ removeDuplicates str <-> c ∈ str) /\
  sublist (removeDuplicates str) str /\
  (NoDup str -> removeDuplicates str = str) /\
  removeDuplicates (removeDuplicates str) = removeDuplicates str /\
  (forall c rest, removeDuplicates (c :: rest)
                  = c :: removeDuplicates (removeAll rest c)).
Proof.
  assert (Hfix : forall l, NoDup l -> firstOccurrences l = l).
  { induction l as [|x l IH]; intros Hnd; [reflexivity|].
    apply NoDup_cons in Hnd as [Hx Hnd]. cbn [firstOccurrences].
    rewrite (IH Hnd). f_equal. apply filter_ne_not_elem. exact Hx. }
  rewrite !removeDuplicates_firstOccurrences.
  split; [apply firstOccurrences_NoDup|].
  split; [intros c; apply firstOccurrences_elem|].
  split; [|split; [apply Hfix|split]].
  - induction str as [|x l IH]; [constructor|].
    cbn [firstOccurrences]. apply sublist_skip.
    etransitivity; [apply sublist_filter|exact IH].
  - apply Hfix. apply firstOccurrences_NoDup.
  - intros c rest. rewrite !removeDuplicates_firstOccurrences.
    cbn [firstOccurrences]. f_equal. unfold removeAll.
    symmetry. apply firstOccurrences_filter.
Qed.

(** ** The renderer *)

Lemma DateTime_from_string_fields (_unix : list ascii) (offset : float) (this : DateTime) :
  DateTime_from_string _unix offset = Ok this ->
  0 <= months (fields this) <= 11 /\ 0 <= days (fields this) <= 30 /\
  0 <= dotw (fields this) <= 6 /\ 0 <= hours (fields this) <= 23 /\
  0 <= minutes (fields this) <= 59 /\ 0 <= seconds (fields this) <= 59.
Proof.
  intros H. apply DateTime_from_string_inv in H as (n & _ & Hp & _).
  destruct (parseUnix_decompose n offset)
    as (dy & y & d & m & monthDays & _ & _ & _ & Hm & _ & Hmd & Hd & Hp').
  rewrite Hp in Hp'. injection Hp' as ->.
  cbn [years months days hours minutes seconds dotw].
  pose proof (daysInMonth_le_31 _ _ _ Hmd).
  pose proof (zellerTrunc_range y (m + 1) (d + 1)).
  assert (Hr : 0 <= snd (splitDays (adjustedUnix n offset)) < 86400).
  { rewrite splitDays_div_mod. cbn [snd]. apply Z.mod_pos_bound. reflexivity. }
  set (r := snd (splitDays (adjustedUnix n offset))) in *. clearbody r.
  repeat split; try lia; Z.to_euclidean_division_equations; lia.
Qed.

Lemma dotwStrMap_at (w : Z) :
  0 <= w <= 6 ->
  exists name, map_at dotwStrMap w = Ok name /\ (3 <= length name)%nat.
Proof.
  intros Hw.
  assert (Hcases : w = 0 \/ w = 1 \/ w = 2 \/ w = 3 \/ w = 4 \/ w = 5 \/ w = 6) by lia.
  clear Hw.
  repeat (destruct Hcases as [->|Hcases]); try subst w;
    (eexists; split; [vm_compute; reflexivity | cbn; lia]).
Qed.

Lemma renderOrderField_ok (this : DateTime) (format : DateTimeFormat) (c : ascii) :
  0 <= months (fields this) <= 11 ->
  exists piece, renderOrderField this format c = Ok piece.
Proof.
  intros Hm. unfold renderOrderField.
  destruct (Ascii.eqb c dayToken); [eauto|].
  destruct (Ascii.eqb c monthToken); [eauto|].
  destruct (Ascii.eqb c alphabeticalMonthToken); [|destruct (Ascii.eqb c yearToken); eauto].
  destruct (monthsStrMap_at _ Hm) as (name & Hname & _). rewrite Hname.
  cbn [mbind outcome_bind]. eauto.
Qed.

Lemma set_last_snoc (c x : ascii) (l : list ascii) : set_last c (l ++ [x]) = Ok (l ++ [c]).
Proof.
  unfold set_last. rewrite removelast_last.
  destruct (l ++ [x]) eqn:E; [|reflexivity].
  destruct l; discriminate.
Qed.

(** X12: rendering a constructed DateTime with a parsed format never fails.
    The result is laid out as: the weekday name and ", " when [showDotw] is
    set (the name [dayOfTheWeekendStr] returns for [fullNames]), the three
    order fields separated by the delimiter, one space, then the time and
    offset parts; with neither time nor offset shown it ends in that
    space. *)
Theorem toString_layout
    (_unix : list ascii) (offset : float) (this : DateTime)
    (format : list ascii) (f : DateTimeFormat) :
  DateTime_from_string _unix offset = Ok this ->
  DateTimeFormat_from_string format = Ok f ->
  exists c1 c2 c3 p1 p2 p3 weekday rest,
    order f = [c1; c2; c3] /\
    renderOrderField this f c1 = Ok p1 /\
    renderOrderField this f c2 = Ok p2 /\
    renderOrderField this f c3 = Ok p3 /\
    toString this f
    = Ok (weekday ++ p1 ++ [delimiter f] ++ p2 ++ [delimiter f] ++ p3 ++ [" "%char] ++ rest) /\
    (showDotw f = false -> weekday = []) /\
    (showDotw f = true ->
     exists name, dayOfTheWeekendStr this (fullNames f) = Ok name /\
                  weekday = name ++ text ", ") /\
    (showTime f = false -> showUTCoffset f = false -> rest = []).
Proof.
  intros Hthis Hf.
  destruct (DateTime_from_string_fields _ _ _ Hthis) as (Hm & _ & Hw & _).
  assert (Hlen : length (order f) = 3%nat).
  { rewrite DateTimeFormat_from_string_unfold in Hf. cbv zeta in Hf.
    destruct (Nat.eqb_spec
                (length (firstOccurrences (orderTokens (normalizeFormat format)))) 3)
      as [H3|H3]; [|discriminate].
    injection Hf as <-. exact H3. }
  destruct (order f) as [|c1 [|c2 [|c3 [|c4 l]]]] eqn:Horder; try discriminate.
  destruct (renderOrderField_ok this f c1 Hm) as [p1 Hp1].
  destruct (renderOrderField_ok this f c2 Hm) as [p2 Hp2].
  destruct (renderOrderField_ok this f c3 Hm) as [p3 Hp3].
  destruct (dotwStrMap_at _ Hw) as (name & Hname & Hnamelen).
  exists c1, c2, c3, p1, p2, p3.
  unfold toString. rewrite Horder.
  assert (Hdow : dayOfTheWeekendStr this (fullNames f)
                 = Ok (if fullNames f then name else take shortStrLength name)).
  { unfold dayOfTheWeekendStr. rewrite (to_uchar_id (dotw (fields this))) by lia.
    destruct (Z.gtb_spec (dotw (fields this)) 6); [lia|].
    rewrite Hname. cbn [mbind outcome_bind].
    destruct (Nat.ltb_spec (length name) shortStrLength); [unfold shortStrLength in *; lia|].
    rewrite andb_false_r. reflexivity. }
  destruct (showDotw f) eqn:Hshow.
  - rewrite Hname. cbn [mbind outcome_bind renderOrder]. rewrite Hp1, Hp2, Hp3.
    cbn [mbind outcome_bind].
    set (weekday := [] ++ (if fullNames f then name ++ text ", "
                           else take shortStrLength name ++ text ", ")).
    replace (((weekday ++ p1 ++ [delimiter f]) ++ p2 ++ [delimiter f]) ++ p3 ++ [delimiter f])
      with ((weekday ++ p1 ++ [delimiter f] ++ p2 ++ [delimiter f] ++ p3) ++ [delimiter f])
      by (rewrite <- !app_assoc; reflexivity).
    rewrite set_last_snoc. cbn [mbind outcome_bind].
    assert (Hweek : exists shown, dayOfTheWeekendStr this (fullNames f) = Ok shown
                                  /\ weekday = shown ++ text ", ").
    { eexists. split; [exact Hdow|]. subst weekday. destruct (fullNames f); reflexivity. }
    clearbody weekday.
    destruct (showTime f), (_12Hours f), (showUTCoffset f);
      eexists weekday, _; (split; [reflexivity|]); do 3 (split; [reflexivity|]);
      (split; [rewrite <- !app_assoc; reflexivity|]);
      (split; [discriminate|]); (split; [intros _; exact Hweek|]);
      intros; try discriminate; reflexivity.
  - cbn [mbind outcome_bind renderOrder]. rewrite Hp1, Hp2, Hp3.
    cbn [mbind outcome_bind].
    replace ((([] ++ p1 ++ [delimiter f]) ++ p2 ++ [delimiter f]) ++ p3 ++ [delimiter f])
      with (([] ++ p1 ++ [delimiter f] ++ p2 ++ [delimiter f] ++ p3) ++ [delimiter f])
      by (rewrite <- !app_assoc; reflexivity).
    rewrite set_last_snoc. cbn [mbind outcome_bind].
    destruct (showTime f), (_12Hours f), (showUTCoffset f);
      eexists [], _; (split; [reflexivity|]); do 3 (split; [reflexivity|]);
      (split; [rewrite <- !app_assoc; reflexivity|]);
      (split; [reflexivity|]); (split; [discriminate|]);
      intros; try discriminate; reflexivity.
Qed.

Lemma toString_layout_witness :
  exists this f,
    DateTime_from_string (text "-1") 2%float = Ok this /\
    DateTimeFormat_from_string (text "W y.mm.d") = Ok f /\
    exists c1 c2 c3 p1 p2 p3 weekday rest,
      order f = [c1; c2; c3] /\
      renderOrderField this f c1 = Ok p1 /\
      renderOrderField this f c2 = Ok p2 /\
      renderOrderField this f c3 = Ok p3 /\
      toString this f
      = Ok (weekday ++ p1 ++ [delimiter f] ++ p2 ++ [delimiter f] ++ p3 ++ [" "%char]
            ++ rest) /\
      (showDotw f = false -> weekday = []) /\
      (showDotw f = true ->
       exists name, dayOfTheWeekendStr this (fullNames f) = Ok name /\
                    weekday = name ++ text ", ") /\
      (showTime f = false -> showUTCoffset f = false -> rest = []).
Proof.
  eexists _, _. split; [vm_compute; reflexivity|]. split; [vm_compute; reflexivity|].
  apply (toString_layout (text "-1") 2%float _ (text "W y.mm.d") _);
    vm_compute; reflexivity.
Defined.

Lemma renderOrder_ok (this : DateTime) (format : DateTimeFormat) :
  0 <= months (fields this) <= 11 ->
  forall order result,
    exists out,
      renderOrder this format order result = Ok (result ++ out) /\
      (order = [] -> out = []) /\
      (order <> [] -> exists out', out = out' ++ [delimiter format]).
Proof.
  intros Hm order. induction order as [|c order IH]; intros result.
  - exists []. cbn [renderOrder]. rewrite app_nil_r. split; [reflexivity|].
    split; [reflexivity | contradiction].
  - cbn [renderOrder].
    destruct (renderOrderField_ok this format c Hm) as [piece Hpiece].
    rewrite Hpiece. cbn [mbind outcome_bind].
    destruct (IH (result ++ piece ++ [delimiter format])) as (out & Hout & Hnil & Hcons).
    exists ((piece ++ [delimiter format]) ++ out).
    split; [rewrite Hout, <- !app_assoc; reflexivity|]. split; [discriminate|].
    intros _. destruct order as [|c' order'].
    + rewrite (Hnil eq_refl), app_nil_r. eauto.
    + destruct (Hcons ltac:(discriminate)) as [out' ->].
      exists ((piece ++ [delimiter format]) ++ out'). rewrite <- !app_assoc. reflexivity.
Qed.

(** X13: on a constructed DateTime, whatever the format (also one built
    from its members), [toString] throws nothing, and it returns a string
    unless the order is empty and the weekday is not shown: then the result
    is empty when its last character is overwritten, the write lands before
    the start of the string, and the call has no defined behaviour. *)
Theorem toString_undefined_iff
    (_unix : list ascii) (offset : float) (this : DateTime) (format : DateTimeFormat) :
  DateTime_from_string _unix offset = Ok this ->
  (toString this format = Undefined <-> order format = [] /\ showDotw format = false) /\
  ((exists out, toString this format = Ok out)
   <-> order format <> [] \/ showDotw format = true).
Proof.
  intros Hthis.
  destruct (DateTime_from_string_fields _ _ _ Hthis) as (Hm & _ & Hw & _).
  destruct (dotwStrMap_at _ Hw) as (name & Hname & Hnamelen).
  unfold toString.
  set (start := if showDotw format
                then name0 ← map_at dotwStrMap (dotw (fields this));
                     Ok ([] ++ (if fullNames format then name0 ++ text ", "
                                else take shortStrLength name0 ++ text ", "))
                else Ok []).
  assert (Hstart : exists result0, start = Ok result0 /\
                                   (result0 = [] <-> showDotw format = false)).
  { subst start. destruct (showDotw format).
    - rewrite Hname. cbn [mbind outcome_bind]. eexists. split; [reflexivity|].
      split; [|discriminate].
      destruct (fullNames format); cbn [app]; intros H.
      + apply app_eq_nil in H as [_ H]. discriminate.
      + apply app_eq_nil in H as [_ H]. discriminate.
    - exists []. split; [reflexivity | tauto]. }
  destruct Hstart as (result0 & -> & Hres0). cbn [mbind outcome_bind].
  destruct (renderOrder_ok this format Hm (order format) result0)
    as (out & -> & Hnil & Hcons).
  cbn [mbind outcome_bind].
  destruct (order format) as [|c order'] eqn:Horder.
  - rewrite (Hnil eq_refl), app_nil_r.
    destruct result0 as [|x result0'].
    + cbn [set_last mbind outcome_bind].
      split; [split; [tauto | reflexivity]|].
      split; [intros [o Ho]; discriminate|].
      intros [Hc|Hs]; [contradiction|].
      assert (showDotw format = false) by (apply Hres0; reflexivity). congruence.
    + cbn [set_last mbind outcome_bind].
      assert (showDotw format = true).
      { destruct (showDotw format); [reflexivity|].
        assert (x :: result0' = []) by (apply Hres0; reflexivity). discriminate. }
      split; [split; [discriminate | intros [_ Hs]; congruence]|].
      split; [auto | eauto].
  - destruct (Hcons ltac:(discriminate)) as [out' ->].
    rewrite app_assoc, set_last_snoc. cbn [mbind outcome_bind].
    split; [split; [discriminate | intros [Ho _]; discriminate]|].
    split; [intros _; left; discriminate | eauto].
Qed.

Lemma toString_undefined_iff_witness :
  exists this,
    DateTime_from_string (text "0") 0%float = Ok this /\
    let format :=
      DateTimeFormat_from_members "/" false true true true false false false [] in
    (toString this format = Undefined <-> order format = [] /\ showDotw format = false) /\
    ((exists out, toString this format = Ok out)
     <-> order format <> [] \/ showDotw format = true).
Proof.
  eexists. split; [vm_compute; reflexivity|]. intros format.
  apply (toString_undefined_iff (text "0") 0%float _ format). vm_compute. reflexivity.
Defined.

Lemma padZeros_two_digits (n : Z) : 0 <= n <= 99 -> length (padZeros n) = 2%nat.
Proof.
  intros Hn.
  assert (Hall : Forall (fun k => length (padZeros k) = 2%nat) (seqZ 0 100)).
  { apply (bool_decide_unpack _). vm_compute. exact I. }
  rewrite Forall_forall in Hall. apply Hall. apply elem_of_seqZ. lia.
Qed.

(** X14: for a constructed DateTime the zero-padded day, month, hour, minute
    and second are always exactly two characters. *)
Theorem padded_fields_two_characters
    (_unix : list ascii) (offset : float) (this : DateTime) :
  DateTime_from_string _unix offset = Ok this ->
  length (padZeros (days (fields this) + 1)) = 2%nat /\
  length (padZeros (months (fields this) + 1)) = 2%nat /\
  length (padZeros (hours (fields this))) = 2%nat /\
  length (padZeros (minutes (fields this))) = 2%nat /\
  length (padZeros (seconds (fields this))) = 2%nat.
Proof.
  intros H. apply DateTime_from_string_fields in H as (Hm & Hd & _ & Hh & Hmin & Hs).
  repeat split; apply padZeros_two_digits; lia.
Qed.

Lemma padded_fields_two_characters_witness :
  exists this,
    DateTime_from_string (text "951782399") 1.5%float = Ok this /\
    length (padZeros (days (fields this) + 1)) = 2%nat /\
    length (padZeros (months (fields this) + 1)) = 2%nat /\
    length (padZeros (hours (fields this))) = 2%nat /\
    length (padZeros (minutes (fields this))) = 2%nat /\
    length (padZeros (seconds (fields this))) = 2%nat.
Proof.
  eexists. split; [vm_compute; reflexivity|].
  apply (padded_fields_two_characters (text "951782399") 1.5%float _).
  vm_compute. reflexivity.
Defined.

(** X15: on a constructed DateTime [dayOfTheWeekendStr] (and [dotwStr])
    never throws: asked for the full name it returns the table entry of the
    stored weekday, otherwise that entry's first three characters, which are
    always three. *)
Theorem dayOfTheWeekendStr_constructed
    (_unix : list ascii) (offset : float) (this : DateTime) :
  DateTime_from_string _unix offset = Ok this ->
  exists name,
    map_at dotwStrMap (dotw (fields this)) = Ok name /\
    dayOfTheWeekendStr this true = Ok name /\
    dayOfTheWeekendStr this false = Ok (take 3 name) /\
    length (take 3 name) = 3%nat /\
    dotwStr this true = Ok name /\
    dotwStr this false = Ok (take 3 name).
Proof.
  intros H. apply DateTime_from_string_fields in H as (_ & _ & Hw & _).
  destruct (dotwStrMap_at _ Hw) as (name & Hname & Hlen).
  exists name. unfold dotwStr, dayOfTheWeekendStr.
  rewrite (to_uchar_id (dotw (fields this))) by lia.
  destruct (Z.gtb_spec (dotw (fields this)) 6); [lia|].
  rewrite Hname. cbn [mbind outcome_bind negb andb].
  destruct (Nat.ltb_spec (length name) shortStrLength); [unfold shortStrLength in *; lia|].
  repeat split; try reflexivity. rewrite length_take. lia.
Qed.

Lemma dayOfTheWeekendStr_constructed_witness :
  exists this,
    DateTime_from_string (text "-86400") 0%float = Ok this /\
    exists name,
      map_at dotwStrMap (dotw (fields this)) = Ok name /\
      dayOfTheWeekendStr this true = Ok name /\
      dayOfTheWeekendStr this false = Ok (take 3 name) /\
      length (take 3 name) = 3%nat /\
      dotwStr this true = Ok name /\
      dotwStr this false = Ok (take 3 name).
Proof.
  eexists. split; [vm_compute; reflexivity|].
  apply (dayOfTheWeekendStr_constructed (text "-86400") 0%float _).
  vm_compute. reflexivity.
Defined.

(** ** Construction, comparison and arithmetic *)

Lemma stoll_cases (str : list ascii) :
  (exists n, stoll str = Ok n /\ strtoll str = n)
  \/ stoll str = Throw (invalid_argument "stoll")
  \/ stoll str = Throw (out_of_range "stoll").
Proof.
  unfold stoll, strtoll.
  destruct (match skip_spaces str with
            | [] => (false, skip_spaces str)
            | c :: rest =>
                if Ascii.eqb c "-" then (true, rest)
                else if Ascii.eqb c "+" then (false, rest) else (false, skip_spaces str)
            end) as [negative digits].
  destruct (negb (starts_with_digit digits)); [right; left; reflexivity|].
  set (value := if negative then - parse_digits 0 digits else parse_digits 0 digits).
  destruct (Z.leb_spec LLONG_MIN value) as [Hlo|Hlo]; cbn [andb].
  - destruct (Z.leb_spec value LLONG_MAX) as [Hhi|Hhi].
    + left. exists value. split; [reflexivity|].
      destruct (Z.ltb_spec value LLONG_MIN); [lia|].
      destruct (Z.ltb_spec LLONG_MAX value); [lia|]. reflexivity.
    + right; right; reflexivity.
  - right; right; reflexivity.
Qed.

(** X16: the string constructor succeeds exactly when [stoll] reads an
    integer from the text; it then keeps the text as given and the offset,
    with the fields of that integer.  Whatever [stoll] throws (no number, or
    a number out of range) comes out as the one invalid-argument error of
    the constructor. *)
Theorem DateTime_from_string_behaviour (_unix : list ascii) (offset : float) :
  match stoll _unix with
  | Ok n =>
      exists f, parseUnix n offset = Ok f /\
                DateTime_from_string _unix offset = Ok (mkDateTime _unix f offset)
  | _ =>
      DateTime_from_string _unix offset
      = Throw (invalid_argument "Your unix timestamp is invalid.")
  end.
Proof.
  unfold DateTime_from_string.
  destruct (stoll_cases _unix) as [(n & Hn & _)|[Hn|Hn]]; rewrite Hn.
  - destruct (parseUnix_decompose n offset)
      as (dy & y & d & m & monthDays & _ & _ & _ & _ & _ & _ & _ & Hp).
    eexists. split; [exact Hp|]. cbn [mbind outcome_bind]. rewrite Hp. reflexivity.
  - reflexivity.
  - reflexivity.
Qed.

Lemma constructed_epoch (_unix : list ascii) (offset : float) (this : DateTime) :
  DateTime_from_string _unix offset = Ok this ->
  exists n, stoll (unix_str this) = Ok n /\ is_ll n /\ parseUnix n offset = Ok (fields this).
Proof.
  intros H. apply DateTime_from_string_inv in H as (n & Hn & Hp & Hs & _).
  exists n. rewrite Hs. split; [exact Hn|]. split; [eapply stoll_range; exact Hn | exact Hp].
Qed.

(** X17: on constructed DateTimes the five comparisons never throw and
    compare the two epoch integers, whatever the offsets and the spelling of
    the texts: exactly one of <, == and > holds, <= is "< or ==", >= is
    "> or ==", and a > b is b < a. *)
Theorem comparisons_order_epochs
    (text1 text2 : list ascii) (offset1 offset2 : float) (a b : DateTime) :
  DateTime_from_string text1 offset1 = Ok a ->
  DateTime_from_string text2 offset2 = Ok b ->
  exists x y,
    stoll text1 = Ok x /\ stoll text2 = Ok y /\
    operator_lt a b = Ok (x <? y) /\
    operator_eq a b = Ok (x =? y) /\
    operator_gt a b = Ok (y <? x) /\
    operator_le a b = Ok ((x <? y) || (x =? y)) /\
    operator_ge a b = Ok ((y <? x) || (x =? y)) /\
    operator_gt a b = operator_lt b a /\
    (x < y /\ x <> y /\ ~ y < x \/ ~ x < y /\ x = y /\ ~ y < x \/ ~ x < y /\ x <> y /\ y < x).
Proof.
  intros Ha Hb.
  apply DateTime_from_string_inv in Ha as (x & Hx & _ & Hsa & _).
  apply DateTime_from_string_inv in Hb as (y & Hy & _ & Hsb & _).
  exists x, y. unfold operator_lt, operator_eq, operator_gt, operator_le, operator_ge.
  rewrite Hsa, Hsb, Hx, Hy. cbn [mbind outcome_bind].
  repeat split; try reflexivity.
  - f_equal. rewrite Z.gtb_ltb. reflexivity.
  - f_equal. destruct (Z.ltb_spec x y), (Z.eqb_spec x y), (Z.leb_spec x y);
      try reflexivity; lia.
  - f_equal. rewrite Z.geb_leb.
    destruct (Z.ltb_spec y x), (Z.eqb_spec x y), (Z.leb_spec y x); try reflexivity; lia.
  - f_equal. rewrite Z.gtb_ltb. reflexivity.
  - lia.
Qed.

Lemma comparisons_order_epochs_witness :
  exists a b,
    DateTime_from_string (text " +007") 3%float = Ok a /\
    DateTime_from_string (text "7 o'clock") (-2)%float = Ok b /\
    exists x y,
      stoll (text " +007") = Ok x /\ stoll (text "7 o'clock") = Ok y /\
      operator_lt a b = Ok (x <? y) /\
      operator_eq a b = Ok (x =? y) /\
      operator_gt a b = Ok (y <? x) /\
      operator_le a b = Ok ((x <? y) || (x =? y)) /\
      operator_ge a b = Ok ((y <? x) || (x =? y)) /\
      operator_gt a b = operator_lt b a /\
      (x < y /\ x <> y /\ ~ y < x \/ ~ x < y /\ x = y /\ ~ y < x
       \/ ~ x < y /\ x <> y /\ y < x).
Proof.
  eexists _, _. split; [vm_compute; reflexivity|]. split; [vm_compute; reflexivity|].
  apply (comparisons_order_epochs (text " +007") (text "7 o'clock") 3%float (-2)%float _ _);
    vm_compute; reflexivity.
Defined.

Lemma DateTime_from_wrapped (z : Z) :
  exists f,
    parseUnix (to_ll z) 0%float = Ok f /\
    DateTime_from_string (to_string (to_ll z)) 0%float
    = Ok (mkDateTime (to_string (to_ll z)) f 0%float) /\
    stoll (to_string (to_ll z)) = Ok (to_ll z).
Proof.
  destruct (DateTime_from_to_string (to_ll z) (to_ll_range z)) as (f & Hp & Hd).
  exists f. split; [exact Hp|]. split; [exact Hd|].
  apply stoll_to_string. apply to_ll_range.
Qed.

(** X18: on constructed DateTimes the operators +, - and * never throw.
    The result is the DateTime of the sum, difference or product of the two
    epoch integers, wrapped to 64 bits: its text is the decimal text of that
    integer, its offset is zero whatever the offsets of the operands, and
    reading its text back gives the integer. *)
Theorem arithmetic_on_epochs
    (text1 text2 : list ascii) (offset1 offset2 : float) (a b : DateTime) :
  DateTime_from_string text1 offset1 = Ok a ->
  DateTime_from_string text2 offset2 = Ok b ->
  exists x y,
    stoll text1 = Ok x /\ stoll text2 = Ok y /\
    arithmeticResult (operator_add a b) (x + y) /\
    arithmeticResult (operator_sub a b) (x - y) /\
    arithmeticResult (operator_mul a b) (x * y).
Proof.
  intros Ha Hb.
  apply DateTime_from_string_inv in Ha as (x & Hx & _ & Hsa & _).
  apply DateTime_from_string_inv in Hb as (y & Hy & _ & Hsb & _).
  exists x, y. split; [exact Hx|]. split; [exact Hy|].
  unfold arithmeticResult, operator_add, operator_sub, operator_mul.
  rewrite Hsa, Hsb, Hx, Hy. cbn [mbind outcome_bind].
  split; [|split].
  - destruct (DateTime_from_wrapped (x + y)) as (f & Hp & Hd & Hs).
    exists f. repeat split; try assumption. apply to_ll_id.
  - destruct (DateTime_from_wrapped (x - y)) as (f & Hp & Hd & Hs).
    exists f. repeat split; try assumption. apply to_ll_id.
  - destruct (DateTime_from_wrapped (x * y)) as (f & Hp & Hd & Hs).
    exists f. repeat split; try assumption. apply to_ll_id.
Qed.

Lemma arithmetic_on_epochs_witness :
  exists a b,
    DateTime_from_string (text "100") 1%float = Ok a /\
    DateTime_from_string (text "50") 2%float = Ok b /\
    exists x y,
      stoll (text "100") = Ok x /\ stoll (text "50") = Ok y /\
      arithmeticResult (operator_add a b) (x + y) /\
      arithmeticResult (operator_sub a b) (x - y) /\
      arithmeticResult (operator_mul a b) (x * y).
Proof.
  eexists _, _. split; [vm_compute; reflexivity|]. split; [vm_compute; reflexivity|].
  apply (arithmetic_on_epochs (text "100") (text "50") 1%float 2%float _ _);
    vm_compute; reflexivity.
Defined.

Lemma to_ll_sub_l (a b : Z) : to_ll (to_ll a - b) = to_ll (a - b).
Proof.
  unfold to_ll, wrap_signed. f_equal.
  replace ((a + 2 ^ (64 - 1)) mod 2 ^ 64 - 2 ^ (64 - 1) - b + 2 ^ (64 - 1))
    with ((a + 2 ^ (64 - 1)) mod 2 ^ 64 - b) by lia.
  rewrite Zminus_mod_idemp_l. f_equal. lia.
Qed.

(** X19: on constructed DateTimes addition commutes, and subtracting an
    operand again undoes an addition even when the sum wrapped around:
    a + b and b + a are the same DateTime, and (a + b) - b == a. *)
Theorem add_commutes_and_sub_undoes
    (text1 text2 : list ascii) (offset1 offset2 : float) (a b : DateTime) :
  DateTime_from_string text1 offset1 = Ok a ->
  DateTime_from_string text2 offset2 = Ok b ->
  exists sum back,
    operator_add a b = Ok sum /\
    operator_add b a = Ok sum /\
    operator_sub sum b = Ok back /\
    operator_eq back a = Ok true.
Proof.
  intros Ha Hb.
  apply constructed_epoch in Ha as (x & Hx & Hrx & _).
  apply constructed_epoch in Hb as (y & Hy & Hry & _).
  destruct (DateTime_from_wrapped (x + y)) as (f & _ & Hsum & Hssum).
  destruct (DateTime_from_wrapped (to_ll (x + y) - y)) as (g & _ & Hback & Hsback).
  exists (mkDateTime (to_string (to_ll (x + y))) f 0%float),
    (mkDateTime (to_string (to_ll (to_ll (x + y) - y))) g 0%float).
  unfold operator_add, operator_sub, operator_eq.
  rewrite Hx, Hy. cbn [mbind outcome_bind].
  split; [exact Hsum|]. split; [rewrite (Z.add_comm y x); exact Hsum|].
  cbn [unix_str]. rewrite Hssum. cbn [mbind outcome_bind].
  split; [exact Hback|].
  rewrite Hsback. cbn [mbind outcome_bind].
  rewrite to_ll_sub_l. replace (x + y - y) with x by lia.
  rewrite (to_ll_id x Hrx), Z.eqb_refl. reflexivity.
Qed.

Lemma add_commutes_and_sub_undoes_witness :
  exists a b,
    DateTime_from_string (text "1700000000") 0%float = Ok a /\
    DateTime_from_string (text "12") 0%float = Ok b /\
    exists sum back,
      operator_add a b = Ok sum /\
      operator_add b a = Ok sum /\
      operator_sub sum b = Ok back /\
      operator_eq back a = Ok true.
Proof.
  eexists _, _. split; [vm_compute; reflexivity|]. split; [vm_compute; reflexivity|].
  apply (add_commutes_and_sub_undoes (text "1700000000") (text "12")
           0%float 0%float _ _); vm_compute; reflexivity.
Defined.

(** X20: the constructor from a C string never fails: where the text holds
    no number it takes epoch 0, and a number out of range is clamped; the
    text is kept as given.  Whenever the string constructor accepts the same
    text, both build the same DateTime. *)
Theorem DateTime_from_literal_total (_unix : list ascii) (offset : float) :
  (exists f,
     parseUnix (strtoll _unix) offset = Ok f /\
     DateTime_from_literal _unix offset = Ok (mkDateTime _unix f offset)) /\
  is_ll (strtoll _unix) /\
  (stoll _unix = Throw (invalid_argument "stoll") -> strtoll _unix = 0) /\
  (stoll _unix = Throw (out_of_range "stoll") ->
   strtoll _unix = LLONG_MIN \/ strtoll _unix = LLONG_MAX) /\
  (forall this, DateTime_from_string _unix offset = Ok this ->
                DateTime_from_literal _unix offset = Ok this).
Proof.
  split; [|split; [|split; [|split]]].
  - destruct (parseUnix_decompose (strtoll _unix) offset)
      as (dy & y & d & m & monthDays & _ & _ & _ & _ & _ & _ & _ & Hp).
    eexists. split; [exact Hp|]. unfold DateTime_from_literal. rewrite Hp. reflexivity.
  - unfold strtoll, is_ll.
    destruct (match skip_spaces _unix with
              | [] => (false, skip_spaces _unix)
              | c :: rest =>
                  if Ascii.eqb c "-" then (true, rest)
                  else if Ascii.eqb c "+" then (false, rest) else (false, skip_spaces _unix)
              end) as [negative digits].
    destruct (negb (starts_with_digit digits)); [vm_compute; split; discriminate|].
    set (value := if negative then - parse_digits 0 digits else parse_digits 0 digits).
    destruct (Z.ltb_spec value LLONG_MIN); [vm_compute; split; discriminate|].
    destruct (Z.ltb_spec LLONG_MAX value); [vm_compute; split; discriminate | lia].
  - unfold stoll, strtoll.
    destruct (match skip_spaces _unix with
              | [] => (false, skip_spaces _unix)
              | c :: rest =>
                  if Ascii.eqb c "-" then (true, rest)
                  else if Ascii.eqb c "+" then (false, rest) else (false, skip_spaces _unix)
              end) as [negative digits].
    destruct (negb (starts_with_digit digits)); [reflexivity|].
    destruct (_ && _); discriminate.
  - unfold stoll, strtoll.
    destruct (match skip_spaces _unix with
              | [] => (false, skip_spaces _unix)
              | c :: rest =>
                  if Ascii.eqb c "-" then (true, rest)
                  else if Ascii.eqb c "+" then (false, rest) else (false, skip_spaces _unix)
              end) as [negative digits].
    destruct (negb (starts_with_digit digits)); [discriminate|].
    set (value := if negative then - parse_digits 0 digits else parse_digits 0 digits).
    destruct (Z.ltb_spec value LLONG_MIN); [auto|].
    destruct (Z.ltb_spec LLONG_MAX value); [auto|].
    destruct (Z.leb_spec LLONG_MIN value); [|lia].
    destruct (Z.leb_spec value LLONG_MAX); [|lia]. discriminate.
  - intros this Hthis.
    apply DateTime_from_string_inv in Hthis as (n & Hn & Hp & Hs & Ho).
    destruct (stoll_cases _unix) as [(n' & Hn' & Hst)|[Hn'|Hn']]; rewrite Hn' in Hn;
      try discriminate.
    injection Hn as ->. unfold DateTime_from_literal. rewrite Hst, Hp.
    cbn [mbind outcome_bind catch_all]. destruct this as [s f o]. cbn in Hs, Ho. subst.
    reflexivity.
Qed.

(** X21: a DateTime built from a C string that [stoll] rejects is a trap for
    the operators: each of them parses the stored text again, and what
    [stoll] throws there leaves the operator as it is, whatever the other
    operand. *)
Theorem operators_rethrow_on_unparsable_text
    (_unix : list ascii) (offset : float) (this other : DateTime) (e : exception) :
  DateTime_from_literal _unix offset = Ok this ->
  stoll _unix = Throw e ->
  operator_lt this other = Throw e /\ operator_gt this other = Throw e /\
  operator_eq this other = Throw e /\ operator_le this other = Throw e /\
  operator_ge this other = Throw e /\ operator_add this other = Throw e /\
  operator_sub this other = Throw e /\ operator_mul this other = Throw e /\
  operator_div this other = Throw e.
Proof.
  intros Hthis He.
  assert (Hs : unix_str this = _unix).
  { unfold DateTime_from_literal in Hthis.
    destruct (parseUnix (strtoll _unix) offset); try discriminate.
    cbn in Hthis. injection Hthis as <-. reflexivity. }
  unfold operator_lt, operator_gt, operator_eq, operator_le, operator_ge,
    operator_add, operator_sub, operator_mul, operator_div.
  rewrite Hs, He. repeat split; reflexivity.
Qed.

Lemma operators_rethrow_on_unparsable_text_witness :
  exists this,
    DateTime_from_literal (text "yesterday") 0%float = Ok this /\
    stoll (text "yesterday") = Throw (invalid_argument "stoll") /\
    let other := this in
    let e := invalid_argument "stoll" in
    operator_lt this other = Throw e /\ operator_gt this other = Throw e /\
    operator_eq this other = Throw e /\ operator_le this other = Throw e /\
    operator_ge this other = Throw e /\ operator_add this other = Throw e /\
    operator_sub this other = Throw e /\ operator_mul this other = Throw e /\
    operator_div this other = Throw e.
Proof.
  eexists. split; [vm_compute; reflexivity|]. split; [vm_compute; reflexivity|].
  intros other e.
  apply (operators_rethrow_on_unparsable_text (text "yesterday") 0%float _ other e);
    vm_compute; reflexivity.
Defined.
